(** * The ERC-20 token chaincode (token-erc-20/chaincode-go/chaincode/tokenerc20.go)

  A shallow embedding of the Go chaincode and its ledger properties.

  - Go's [int] is modelled as a 64-bit two's complement integer: a [Z] in
    the range [int_min .. int_max], with the wrap-around of [+] and [-]
    written out ([GoInt.add], [GoInt.sub]).
  - The world state is a finite map from keys to values, both strings,
    as the chaincode stub has it.  Balances, allowances and the supply
    are stored as decimal text ([strconv.Itoa]) and read back with
    [strconv.Atoi], whose error the source always discards.
  - A contract method is a computation in a small state-and-error monad
    over the stub (world state and event of the transaction) and the
    identity of the caller.
  - An amount is a [Z]; the methods are called with [int]s only, and a
    statement that depends on it says so ([is_int]). *)

From Stdlib Require Import ZArith NArith String Ascii Lia.
From stdpp Require Import base option gmap strings fin_maps sorting.

Local Open Scope Z_scope.

(** ** Go's [int] *)

Module GoInt.

Definition int_min : Z := -9223372036854775808.
Definition int_max : Z := 9223372036854775807.

(** The values an [int] variable can hold. *)
Definition is_int (z : Z) : Prop := int_min <= z <= int_max.

(** The representative of [z] modulo 2^64 in the range of [int]. *)
Definition wrap (z : Z) : Z := (z + 2 ^ 63) mod 2 ^ 64 - 2 ^ 63.

(** [a + b] and [a - b] on [int]s. *)
Definition add (a b : Z) : Z := wrap (a + b).
Definition sub (a b : Z) : Z := wrap (a - b).

End GoInt.
Import GoInt.

(** ** [strconv.Itoa] and [strconv.Atoi] *)

Module strconv.

Definition digit (d : N) : ascii := ascii_of_N (48 + d).

(** The digit loop of [formatBits] in base 10: the least significant
    digit is produced first and put in front of what is already there.
    [fuel] bounds the number of digits. *)
Fixpoint formatBits (fuel : nat) (u : N) (acc : string) : string :=
  match fuel with
  | O => acc
  | S fuel' =>
      if (u <? 10)%N then String (digit u) acc
      else formatBits fuel' (u / 10)%N (String (digit (u mod 10)%N) acc)
  end.

(** [strconv.Itoa(i)]: a minus sign for a negative [i], then the digits
    of its magnitude.  No [int] has more than 19 digits. *)
Definition Itoa (i : Z) : string :=
  if i <? 0 then String "-" (formatBits 20 (Z.to_N (- i)) "")
  else formatBits 20 (Z.to_N i) "".

(** What [ParseUint] found: a number, or one of its two errors. *)
Inductive parsed : Type :=
| Parsed (n : N)
| SyntaxError
| RangeError.

Definition maxUint64 : N := 18446744073709551615.

(** From this number on, the product with 10 overflows a [uint64]. *)
Definition cutoff : N := (maxUint64 / 10 + 1)%N.

(** The digit loop of [ParseUint] in base 10 on 64 bits: a character that
    is no digit is a syntax error; a number that no longer fits is a range
    error, found before the rest of the text is looked at. *)
Fixpoint parseUint (s : string) (n : N) : parsed :=
  match s with
  | EmptyString => Parsed n
  | String ch s' =>
      let d := N_of_ascii ch in
      if ((48 <=? d) && (d <=? 57))%N then
        if (cutoff <=? n)%N then RangeError
        else
          let n1 := (n * 10 + (d - 48))%N in
          if (maxUint64 <? n1)%N then RangeError else parseUint s' n1
      else SyntaxError
  end.

(** The value [strconv.Atoi(s)] returns, its error being discarded as at
    every call in the chaincode: 0 on a syntax error (empty text, a sign
    alone, a character that is no digit), the nearest bound of [int] on
    a range error. *)
Definition Atoi (s : string) : Z :=
  match s with
  | EmptyString => 0
  | String c rest =>
      let neg := Ascii.eqb c "-" in
      let body := if (Ascii.eqb c "-" || Ascii.eqb c "+")%bool then rest else s in
      match body with
      | EmptyString => 0
      | _ =>
          match parseUint body 0 with
          | SyntaxError => 0
          | RangeError => if neg then int_min else int_max
          | Parsed un =>
              if neg then (if (2 ^ 63 <? un)%N then int_min else - Z.of_N un)
              else (if (2 ^ 63 <=? un)%N then int_max else Z.of_N un)
          end
      end
  end.

End strconv.
Import strconv.


(** ** The transaction context: caller identity, stub, errors *)

(** The [event] struct of the source: the payload of a "Transfer" or an
    "Approval" notification. *)
Record event : Type := Event { From : string; To : string; Value : Z }.

(** What [ctx.GetClientIdentity()] resolves for the caller: the account
    identifier ([GetID]) and the organisation ([GetMSPID]). *)
Record ClientIdentity : Type := Identity { ID : string; MSPID : string }.

(** What [ctx.GetStub()] gives access to: the world state, and the event
    set by the transaction (its name and payload; the payload is the JSON
    encoding of the struct, kept here as the struct). *)
Record Stub : Type := MkStub {
  state : gmap string string;
  emitted : option (string * event)
}.

(** The errors the contract returns, one constructor for each message of
    the source. *)
Inductive error : Type :=
| ErrInvalidKey
    (* what CreateCompositeKey returns *)
| ErrAccountDoesntExist (account : string)
    (* BalanceOf: "the account %s doesnt exist" *)
| ErrFailedToTransfer (cause : error)
    (* Transfer: "failed to transfer: %v" *)
| ErrFailedAmountPositive
    (* TransferFrom: "failed amount must be positive integer" *)
| ErrTransferFromKey (cause : error)
    (* TransferFrom: "failed to create the composite key for prefix %s: %v" *)
| ErrNotEnoughAllowance
    (* TransferFrom: "spender does not have enough allowance to transfer" *)
| ErrFailedToTransferFrom (cause : error)
    (* TransferFrom: "failed to transfer:%v" *)
| ErrApproveKey (cause : error)
    (* Approve: "failed to create composite key for prefix %s: %v" *)
| ErrAllowanceKey (cause : error)
    (* Allowance: "failed to create composite key fpr %s: %v" *)
| ErrNotAuthorizedToMint (msp : string)
    (* Mint: "client %s is not authorized to create new tokens" *)
| ErrNotAuthorizedToBurn (msp : string)
    (* Burn: "client %s is not authorized to burn tokens" *)
| ErrAmountPositive
    (* Mint, Burn: "amount must be positive integer" *)
| ErrSameAddresses
    (* _transferCalc: "failed to and from are both the same addresses " *)
| ErrAmountLessThanZero
    (* _transferCalc: "failed, amount less than zero" *)
| ErrNoBalance (account : string)
    (* _transferCalc: "client account %s has no balance" *)
| ErrInsufficientFunds (account : string).
    (* _transferCalc: "failed, client account %s has insufficient funds" *)

Inductive result (A : Type) : Type :=
| Ok (a : A)
| Err (e : error).
Arguments Ok {A} a.
Arguments Err {A} e.

(** A contract method runs for a caller on a stub; it leaves the stub with
    the writes it made, also when it returns an error. *)
Definition Tx (A : Type) : Type := ClientIdentity → Stub → Stub * result A.

#[global] Instance Tx_ret : MRet Tx := λ A a _ stub, (stub, Ok a).

#[global] Instance Tx_bind : MBind Tx := λ A B k m id stub,
  match m id stub with
  | (stub', Ok a) => k a id stub'
  | (stub', Err e) => (stub', Err e)
  end.

#[global] Instance Tx_throw : MThrow error Tx := λ A e _ stub, (stub, Err e).

(** [if err != nil { return fmt.Errorf("...: %v", err) }] *)
Definition onError {A} (m : Tx A) (wrapErr : error → error) : Tx A := λ id stub,
  match m id stub with
  | (stub', Err e) => (stub', Err (wrapErr e))
  | r => r
  end.

(** Modelled from the spec: the identity collaborator, which is not part
    of the sources.  [GetID] is the stable identifier of the caller and
    [GetMSPID] its organisation; resolving them does not fail. *)
Definition GetID : Tx string := λ id stub, (stub, Ok (ID id)).
Definition GetMSPID : Tx string := λ id stub, (stub, Ok (MSPID id)).

(** Modelled from the spec: the key-value store of the world state, which
    is not part of the sources, as a map in memory.  [GetState] returns the
    bytes under a key, [nil] for a key that has no value, and [PutState]
    overwrites them; neither fails, so the branches of the source that hand
    on an error of the store are never taken.  A read sees the writes made
    before it; the methods read a key they have written only when the
    identifier of the caller of [Mint] or [Burn] is the key of the supply,
    and no statement below depends on that case. *)
Definition GetState (key : string) : Tx (option string) := λ _ stub,
  (stub, Ok (state stub !! key)).

Definition PutState (key value : string) : Tx unit := λ _ stub,
  (MkStub (<[key := value]> (state stub)) (emitted stub), Ok ()).

(** Modelled from the spec: the event publication of the stub, which is
    not part of the sources.  A transaction carries the event set last. *)
Definition SetEvent (name : string) (payload : event) : Tx unit := λ _ stub,
  (MkStub (state stub) (Some (name, payload)), Ok ()).

(** The separator of composite keys, U+0000. *)
Definition NUL : ascii := Ascii.zero.

Fixpoint containsNUL (s : string) : bool :=
  match s with
  | EmptyString => false
  | String c s' => Ascii.eqb c NUL || containsNUL s'
  end.

Fixpoint joinAttributes (attributes : list string) : string :=
  match attributes with
  | [] => EmptyString
  | att :: rest => att +:+ String NUL (joinAttributes rest)
  end.

(** Modelled from the spec: [CreateCompositeKey] of the chaincode stub,
    which is not part of the sources.  The key is the separator, the object
    type and every attribute in turn, each followed by the separator; an
    object type or attribute that contains the separator is refused. *)
Definition CreateCompositeKey (objectType : string) (attributes : list string) : Tx string :=
  if existsb containsNUL (objectType :: attributes) then mthrow ErrInvalidKey
  else mret (String NUL (objectType +:+ String NUL (joinAttributes attributes))).

(** [string(b)] for the bytes [GetState] returned: [nil] is the empty text. *)
Definition bytesToString (b : option string) : string := default EmptyString b.

(** ** The contract

    The methods follow the source statement by statement.  The calls of
    [log.Printf] are left out, and [json.Marshal] of an [event], which
    cannot fail on two strings and an [int], is the event itself. *)

Definition totalSupplyKey : string := "totalSupply".
Definition allowancePrefix : string := "allowance".

Definition BalanceOf (account : string) : Tx Z :=
  ownerBalance ← GetState account;
  match ownerBalance with
  | None => mthrow (ErrAccountDoesntExist account)
  | Some bytes => mret (Atoi bytes)
  end.

Definition _transferCalc (from receiver : string) (amount : Z) : Tx unit :=
  if String.eqb from receiver then mthrow ErrSameAddresses
  else if amount <? 0 then mthrow ErrAmountLessThanZero
  else
    fromCurrentBalanceBytes ← GetState from;
    match fromCurrentBalanceBytes with
    | None => mthrow (ErrNoBalance from)
    | Some bytes =>
        let fromCurrentBalance := Atoi bytes in
        if fromCurrentBalance <? amount then mthrow (ErrInsufficientFunds from)
        else
          toCurrentBalanceBytes ← GetState receiver;
          let toCurrentBalance :=
            match toCurrentBalanceBytes with
            | None => 0
            | Some bytes' => Atoi bytes'
            end in
          let fromUpdatedBalance := sub fromCurrentBalance amount in
          let toUpdatedBalance := add toCurrentBalance amount in
          PutState from (Itoa fromUpdatedBalance);;
          PutState receiver (Itoa toUpdatedBalance)
    end.

Definition Transfer (receiver : string) (amount : Z) : Tx unit :=
  clientID ← GetID;
  onError (_transferCalc clientID receiver amount) ErrFailedToTransfer;;
  SetEvent "Transfer" (Event clientID receiver amount).

Definition TransferFrom (from receiver : string) (amount : Z) : Tx unit :=
  if amount <=? 0 then mthrow ErrFailedAmountPositive
  else
    spender ← GetID;
    allowanceKey ← onError (CreateCompositeKey allowancePrefix [from; spender])
                           ErrTransferFromKey;
    currAllowanceTemp ← GetState allowanceKey;
    let currentAllowance := Atoi (bytesToString currAllowanceTemp) in
    if currentAllowance <=? amount then mthrow ErrNotEnoughAllowance
    else
      onError (_transferCalc from receiver amount) ErrFailedToTransferFrom;;
      let updatedAllowance := sub currentAllowance amount in
      PutState allowanceKey (Itoa updatedAllowance);;
      SetEvent "Transfer" (Event from receiver amount).

Definition Approve (spender : string) (amount : Z) : Tx unit :=
  owner ← GetID;
  allowanceKey ← onError (CreateCompositeKey allowancePrefix [owner; spender])
                         ErrApproveKey;
  PutState allowanceKey (Itoa amount);;
  SetEvent "Approval" (Event owner spender amount).

Definition Allowance (owner spender : string) : Tx Z :=
  allowanceKey ← onError (CreateCompositeKey allowancePrefix [owner; spender])
                         ErrAllowanceKey;
  allowanceTemp ← GetState allowanceKey;
  mret match allowanceTemp with
       | None => 0
       | Some bytes => Atoi bytes
       end.

Definition Mint (amount : Z) : Tx unit :=
  verifyClientID ← GetMSPID;
  if negb (String.eqb verifyClientID "Org1MSP")
  then mthrow (ErrNotAuthorizedToMint verifyClientID)
  else
    minter ← GetID;
    if amount <=? 0 then mthrow ErrAmountPositive
    else
      minterBalance ← GetState minter;
      let currentBalance :=
        match minterBalance with
        | None => 0
        | Some bytes => Atoi bytes
        end in
      let updatedBalance := add currentBalance amount in
      PutState minter (Itoa updatedBalance);;
      totalSupplyBytes ← GetState totalSupplyKey;
      let totalSupply :=
        match totalSupplyBytes with
        | None => 0
        | Some bytes => Atoi bytes
        end in
      let totalSupply' := add totalSupply amount in
      PutState totalSupplyKey (Itoa totalSupply');;
      SetEvent "Transfer" (Event "0x0" minter amount).

Definition Burn (amount : Z) : Tx unit :=
  verifyClientID ← GetMSPID;
  if negb (String.eqb verifyClientID "Org1MSP")
  then mthrow (ErrNotAuthorizedToBurn verifyClientID)
  else
    burner ← GetID;
    if amount <=? 0 then mthrow ErrAmountPositive
    else
      burnerBalance ← GetState burner;
      let currentBalance :=
        match burnerBalance with
        | None => 0
        | Some bytes => Atoi bytes
        end in
      let updatedBalance := sub currentBalance amount in
      PutState burner (Itoa updatedBalance);;
      totalSupplyBytes ← GetState totalSupplyKey;
      let totalSupply :=
        match totalSupplyBytes with
        | None => 0
        | Some bytes => Atoi bytes
        end in
      let totalSupply' := sub totalSupply amount in
      PutState totalSupplyKey (Itoa totalSupply');;
      SetEvent "Transfer" (Event "0x0" burner amount).

Definition ClientAccountID : Tx string := GetID.

(** ** Transactions on the ledger *)

(** The public methods that change the ledger, with their arguments. *)
Inductive invocation : Type :=
| CallMint (amount : Z)
| CallBurn (amount : Z)
| CallTransfer (receiver : string) (amount : Z)
| CallTransferFrom (from receiver : string) (amount : Z)
| CallApprove (spender : string) (amount : Z).

Definition invoke (c : invocation) : Tx unit :=
  match c with
  | CallMint amount => Mint amount
  | CallBurn amount => Burn amount
  | CallTransfer receiver amount => Transfer receiver amount
  | CallTransferFrom from receiver amount => TransferFrom from receiver amount
  | CallApprove spender amount => Approve spender amount
  end.

Record transaction : Type := Transaction { caller : ClientIdentity; call : invocation }.

(** A method starts on the committed world state with no event set. *)
Definition begin (w : gmap string string) : Stub := MkStub w None.

(** The ledger takes over the writes of a transaction that returned no
    error and drops the writes of one that returned an error. *)
Definition commit (t : transaction) (w : gmap string string) : option (gmap string string) :=
  match invoke (call t) (caller t) (begin w) with
  | (stub', Ok _) => Some (state stub')
  | (_, Err _) => None
  end.

(** A sequence of transactions, every one of which succeeds. *)
Fixpoint commitAll (ts : list transaction) (w : gmap string string) : option (gmap string string) :=
  match ts with
  | [] => Some w
  | t :: ts' =>
      match commit t w with
      | Some w' => commitAll ts' w'
      | None => None
      end
  end.

(** The persisted layout: composite keys (the allowances) start with the
    separator, the supply has its fixed key, and every other key is an
    account identifier with its balance. *)
Definition isCompositeKey (key : string) : bool :=
  match key with
  | EmptyString => false
  | String c _ => Ascii.eqb c NUL
  end.

Definition isAccount (key : string) : bool :=
  negb (String.eqb key totalSupplyKey) && negb (isCompositeKey key).

(** The integer stored under a key, an absent record counting as 0: the
    reading of [Mint], [Burn] and the credit side of [_transferCalc]. *)
Definition balance (w : gmap string string) (key : string) : Z :=
  match w !! key with
  | None => 0
  | Some bytes => Atoi bytes
  end.

Definition TotalSupply (w : gmap string string) : Z := balance w totalSupplyKey.

Definition sumBalances (w : gmap string string) : Z :=
  map_fold (λ key bytes acc, if isAccount key then acc + Atoi bytes else acc) 0 w.

(** The keys a transaction debits or credits as accounts: the caller of
    [Mint], [Burn] and [Transfer], the owner named to [TransferFrom], and
    the recipient. *)
Definition accountsOf (t : transaction) : list string :=
  match call t with
  | CallMint _ => [ID (caller t)]
  | CallBurn _ => [ID (caller t)]
  | CallTransfer receiver _ => [ID (caller t); receiver]
  | CallTransferFrom from receiver _ => [from; receiver]
  | CallApprove _ _ => []
  end.

(** A transaction debits and credits only keys that the persisted layout
    has for accounts. *)
Definition wellAddressed (t : transaction) : bool := forallb isAccount (accountsOf t).

(** The key under which the allowance of [spender] on the tokens of
    [owner] is stored: what [CreateCompositeKey] builds from the prefix and
    the two names. *)
Definition allowanceKeyOf (owner spender : string) : string :=
  String NUL (allowancePrefix +:+ String NUL (owner +:+ String NUL (spender +:+ String NUL EmptyString))).

(** The ledger after a transaction was submitted: as before when the
    transaction failed. *)
Definition submit (t : transaction) (w : gmap string string) : gmap string string :=
  default w (commit t w).

(** Every account balance is at least 0. *)
Definition balancesNonNegative (w : gmap string string) : Prop :=
  ∀ key, isAccount key = true → 0 <= balance w key.

(** The invariant of the ledger: the supply is the sum of the account
    balances, reduced to the range of [int]. *)
Definition supplyMatches (w : gmap string string) : Prop :=
  wrap (sumBalances w) = TotalSupply w.

(** The credit a transaction makes does not leave the range of [int]. *)
Definition creditFits (t : transaction) (w : gmap string string) : Prop :=
  match call t with
  | CallMint amount => balance w (ID (caller t)) + amount <= int_max
  | CallTransfer receiver amount => balance w receiver + amount <= int_max
  | CallTransferFrom _ receiver amount => balance w receiver + amount <= int_max
  | _ => True
  end.

Definition isBurn (t : transaction) : bool :=
  match call t with
  | CallBurn _ => true
  | _ => false
  end.

(** [Mint] and [Burn], the methods that write the supply. *)
Definition isIssuance (t : transaction) : bool :=
  match call t with
  | CallMint _ => true
  | CallBurn _ => true
  | _ => false
  end.

(** [TransferFrom] and [Approve], the methods that write an allowance. *)
Definition writesAllowance (t : transaction) : bool :=
  match call t with
  | CallTransferFrom _ _ _ => true
  | CallApprove _ _ => true
  | _ => false
  end.

(** The amount a transaction is called with. *)
Definition amountOf (t : transaction) : Z :=
  match call t with
  | CallMint amount => amount
  | CallBurn amount => amount
  | CallTransfer _ amount => amount
  | CallTransferFrom _ _ amount => amount
  | CallApprove _ amount => amount
  end.

(** Every record is the text [Itoa] prints for the [int] it reads as. *)
Definition canonical (w : gmap string string) : Prop :=
  ∀ key bytes, w !! key = Some bytes → Itoa (Atoi bytes) = bytes ∧ is_int (Atoi bytes).

(** * The asset chaincode (asset-transfer-myattempt/chaincode-go/chaincode/smartcontract.go)

    The second contract of the repository keeps one JSON record for each
    asset under the identifier of the asset.  [float32] and the JSON
    encoding are parameters: the contract does not look into either. *)

Module AssetTransfer.

(** The errors the contract returns. *)
Inductive error : Type :=
| ErrThisAssetDoesNotExist (id : string)
    (* ReadAsset: "This asset %s does not exist" *)
| ErrAlreadyExists (id : string)
    (* CreateAsset: "the asset %s already exists" *)
| ErrDoesNotExist (id : string)
    (* DeleteAsset, UpdateAsset: "the asset %s does not exist" *)
| ErrJSON.
    (* the error of json.Marshal or json.Unmarshal, handed on as it is *)

Inductive result (A : Type) : Type :=
| Ok (a : A)
| Err (e : error).
Arguments Ok {A} a.
Arguments Err {A} e.

(** A method runs on the world state and leaves it with its writes. *)
Definition Tx (A : Type) : Type := gmap string string → gmap string string * result A.

#[global] Instance Tx_ret : MRet Tx := λ A a w, (w, Ok a).

#[global] Instance Tx_bind : MBind Tx := λ A B k m w,
  match m w with
  | (w', Ok a) => k a w'
  | (w', Err e) => (w', Err e)
  end.

#[global] Instance Tx_throw : MThrow error Tx := λ A e w, (w, Err e).

(** Modelled from the spec: the key-value store of the world state, as for
    the token contract, with [DelState] removing the value of a key. *)
Definition GetState (key : string) : Tx (option string) := λ w, (w, Ok (w !! key)).
Definition PutState (key value : string) : Tx unit := λ w, (<[key := value]> w, Ok ()).
Definition DelState (key : string) : Tx unit := λ w, (delete key w, Ok ()).

(** Modelled from the spec: the range scan of the store, which is not part
    of the sources.  It yields the records whose key lies between the start
    key, included, and the end key, excluded, an empty key standing for no
    bound, in the order of the keys; the iterator is the list of them. *)
Definition byKey (a b : string * string) : Prop := String.le a.1 b.1.

#[global] Instance byKey_dec : RelDecision byKey.
Proof. intros a b. unfold byKey. apply _. Defined.

Definition inRange (startKey endKey key : string) : bool :=
  String.leb startKey key && (String.eqb endKey "" || String.ltb key endKey).

Definition GetStateByRange (startKey endKey : string) : Tx (list (string * string)) := λ w,
  (w, Ok (List.filter (λ kv, inRange startKey endKey kv.1) (merge_sort byKey (map_to_list w)))).

Section Contract.

Context {float32 : Type}.

Record Asset : Type := MkAsset {
  ID : string;
  Owner : string;
  ItemName : string;
  Description : string;
  AppraisedValue : float32
}.

(** [json.Marshal] and [json.Unmarshal] for an [Asset]; [None] is their
    error. *)
Variable Marshal : Asset → option string.
Variable Unmarshal : string → option Asset.

Definition AssetExists (id : string) : Tx bool :=
  assetJSON ← GetState id;
  mret match assetJSON with
       | None => false
       | Some _ => true
       end.

Definition ReadAsset (id : string) : Tx Asset :=
  assetJSON ← GetState id;
  match assetJSON with
  | None => mthrow (ErrThisAssetDoesNotExist id)
  | Some bytes =>
      match Unmarshal bytes with
      | None => mthrow ErrJSON
      | Some asset => mret asset
      end
  end.

Definition CreateAsset (id owner itemName description : string)
    (appraisedValue : float32) : Tx unit :=
  exists_ ← AssetExists id;
  if exists_ : bool then mthrow (ErrAlreadyExists id)
  else
    let asset := MkAsset id owner itemName description appraisedValue in
    match Marshal asset with
    | None => mthrow ErrJSON
    | Some assetJSON => PutState id assetJSON
    end.

Definition DeleteAsset (id : string) : Tx unit :=
  exists_ ← AssetExists id;
  if negb exists_ then mthrow (ErrDoesNotExist id)
  else DelState id.

Definition UpdateAsset (id owner itemName description : string)
    (appraisedValue : float32) : Tx unit :=
  exists_ ← AssetExists id;
  if negb exists_ then mthrow (ErrDoesNotExist id)
  else
    let asset := MkAsset id owner itemName description appraisedValue in
    match Marshal asset with
    | None => mthrow ErrJSON
    | Some assetJSON => PutState id assetJSON
    end.

Definition TransferAsset (id newOwner : string) : Tx unit :=
  asset ← ReadAsset id;
  let asset' := MkAsset (ID asset) newOwner (ItemName asset) (Description asset)
                        (AppraisedValue asset) in
  match Marshal asset' with
  | None => mthrow ErrJSON
  | Some assetJSON => PutState id assetJSON
  end.

(** The loop of [GetAllAssets] over the iterator: it decodes one record
    after the other and stops at the first that [json.Unmarshal] refuses. *)
Fixpoint decodeAll (results : list (string * string)) : option (list Asset) :=
  match results with
  | [] => Some []
  | queryResponse :: rest =>
      match Unmarshal queryResponse.2 with
      | None => None
      | Some asset =>
          match decodeAll rest with
          | None => None
          | Some assets => Some (asset :: assets)
          end
      end
  end.

Definition GetAllAssets : Tx (list Asset) :=
  resultsIterator ← GetStateByRange "" "";
  match decodeAll resultsIterator with
  | None => mthrow ErrJSON
  | Some assets => mret assets
  end.

(** The loop of [InitLedger] over its assets. *)
Fixpoint putAssets (assets : list Asset) : Tx unit :=
  match assets with
  | [] => mret ()
  | asset :: rest =>
      match Marshal asset with
      | None => mthrow ErrJSON
      | Some assetJSON => PutState (ID asset) assetJSON;; putAssets rest
      end
  end.

(** The [float32] constant 500 of [InitLedger]. *)
Variable f500 : float32.

Definition InitLedger : Tx unit :=
  putAssets [MkAsset "asset1" "DriverCompany" "Chocolate Bars"
                     "Deliver to shipment company, 100 bars" f500].

End Contract.

End AssetTransfer.

(** * Properties *)

(** ** Arithmetic of [int] *)

Module GoIntFacts.

Lemma wrap_is_int z : is_int (wrap z).
Proof.
  unfold is_int, wrap, int_min, int_max.
  pose proof (Z.mod_pos_bound (z + 2 ^ 63) (2 ^ 64) ltac:(lia)). lia.
Qed.

Lemma wrap_id z : is_int z → wrap z = z.
Proof.
  unfold is_int, wrap, int_min, int_max. intros Hz.
  rewrite Z.mod_small by lia. lia.
Qed.

Lemma wrap_eq_mod a b : (a - b) mod 2 ^ 64 = 0 → wrap a = wrap b.
Proof.
  unfold wrap. intros Hab. f_equal.
  replace (a + 2 ^ 63) with (b + 2 ^ 63 + (a - b)) by lia.
  rewrite Z.add_mod, Hab, Z.add_0_r, Z.mod_mod by lia. reflexivity.
Qed.

Lemma wrap_mod z : (wrap z - z) mod 2 ^ 64 = 0.
Proof.
  unfold wrap.
  rewrite (Z.mod_eq (z + 2 ^ 63) (2 ^ 64)) by lia.
  replace (z + 2 ^ 63 - 2 ^ 64 * ((z + 2 ^ 63) / 2 ^ 64) - 2 ^ 63 - z)
    with (- ((z + 2 ^ 63) / 2 ^ 64) * 2 ^ 64) by lia.
  apply Z.mod_mul. lia.
Qed.

Lemma wrap_add_l a b : wrap (wrap a + b) = wrap (a + b).
Proof.
  apply wrap_eq_mod.
  replace (wrap a + b - (a + b)) with (wrap a - a) by lia. apply wrap_mod.
Qed.

Lemma wrap_add_r a b : wrap (a + wrap b) = wrap (a + b).
Proof. rewrite Z.add_comm, wrap_add_l. f_equal. lia. Qed.

Lemma wrap_sub_l a b : wrap (wrap a - b) = wrap (a - b).
Proof. apply (wrap_add_l a (- b)). Qed.

Lemma add_is_int a b : is_int (add a b).
Proof. apply wrap_is_int. Qed.

Lemma sub_is_int a b : is_int (sub a b).
Proof. apply wrap_is_int. Qed.

Lemma add_exact a b : is_int (a + b) → add a b = a + b.
Proof. apply wrap_id. Qed.

Lemma sub_exact a b : is_int (a - b) → sub a b = a - b.
Proof. apply wrap_id. Qed.

End GoIntFacts.
Import GoIntFacts.

(** ** [Atoi] reads back what [Itoa] wrote *)

Module strconvFacts.

Lemma N_of_digit d : (d < 10)%N → N_of_ascii (digit d) = (48 + d)%N.
Proof. intros Hd. unfold digit. apply N_ascii_embedding. lia. Qed.

Lemma append_cons c (s1 s2 : string) : String c s1 +:+ s2 = String c (s1 +:+ s2).
Proof. reflexivity. Qed.

Lemma append_assoc (s1 s2 s3 : string) : (s1 +:+ s2) +:+ s3 = s1 +:+ (s2 +:+ s3).
Proof.
  induction s1 as [|c s1 IH]; [reflexivity|].
  rewrite !append_cons, IH. reflexivity.
Qed.

Lemma parseUint_app s1 s2 n :
  parseUint (s1 +:+ s2) n =
    match parseUint s1 n with
    | Parsed m => parseUint s2 m
    | e => e
    end.
Proof.
  revert n. induction s1 as [|c s1 IH]; intros n; [reflexivity|].
  rewrite append_cons. cbn [parseUint].
  destruct ((48 <=? N_of_ascii c) && (N_of_ascii c <=? 57))%N; [|reflexivity].
  destruct (cutoff <=? n)%N; [reflexivity|]. cbv zeta.
  destruct (maxUint64 <? _)%N; [reflexivity | apply IH].
Qed.

Lemma formatBits_acc fuel u acc :
  formatBits fuel u acc = formatBits fuel u EmptyString +:+ acc.
Proof.
  revert u acc. induction fuel as [|fuel IH]; intros u acc; simpl; [reflexivity|].
  destruct (u <? 10)%N; [reflexivity|].
  rewrite IH, (IH _ (String _ EmptyString)).
  rewrite append_assoc. reflexivity.
Qed.

Lemma cutoff_value : cutoff = 1844674407370955162%N.
Proof. reflexivity. Qed.

Lemma parseUint_digit d n :
  (d < 10)%N → (n * 10 + d <= maxUint64)%N →
  parseUint (String (digit d) EmptyString) n = Parsed (n * 10 + d)%N.
Proof.
  intros Hd Hfits. cbn [parseUint]. rewrite N_of_digit by assumption.
  replace ((48 <=? 48 + d) && (48 + d <=? 57))%N with true
    by (symmetry; apply andb_true_intro; split; apply N.leb_le; lia).
  unfold maxUint64 in *.
  destruct (N.leb_spec cutoff n) as [Hcut|_]; [rewrite cutoff_value in Hcut; lia|].
  cbv zeta. replace (48 + d - 48)%N with d by lia.
  destruct (N.ltb_spec 18446744073709551615 (n * 10 + d)); [lia | reflexivity].
Qed.

Lemma parseUint_formatBits fuel u :
  (u < 10 ^ N.of_nat fuel)%N → (u <= maxUint64)%N →
  parseUint (formatBits fuel u EmptyString) 0 = Parsed u.
Proof.
  revert u. induction fuel as [|fuel IH]; intros u Hu Hmax.
  - simpl in Hu. assert (u = 0%N) by lia. subst u. reflexivity.
  - cbn [formatBits]. destruct (N.ltb_spec u 10) as [Hlt|Hge].
    + rewrite parseUint_digit by (unfold maxUint64; lia). f_equal.
    + assert (Hsplit : (u / 10 * 10 + u mod 10)%N = u)
        by (rewrite (N.div_mod u 10) at 3 by lia; lia).
      rewrite formatBits_acc, parseUint_app.
      rewrite IH.
      * rewrite parseUint_digit.
        -- f_equal. exact Hsplit.
        -- apply N.mod_lt. lia.
        -- rewrite Hsplit. exact Hmax.
      * rewrite Nat2N.inj_succ, N.pow_succ_r' in Hu.
        apply N.Div0.div_lt_upper_bound. exact Hu.
      * pose proof (N.Div0.mul_div_le u 10). lia.
Qed.

Lemma formatBits_head fuel u acc :
  ∃ d s, (d < 10)%N ∧ formatBits (S fuel) u acc = String (digit d) s.
Proof.
  revert u acc. induction fuel as [|fuel IH]; intros u acc.
  - cbn [formatBits]. destruct (N.ltb_spec u 10) as [Hlt|Hge].
    + eauto.
    + exists (u mod 10)%N, acc. split; [apply N.mod_lt; lia | reflexivity].
  - change (formatBits (S (S fuel)) u acc) with
      (if (u <? 10)%N then String (digit u) acc
       else formatBits (S fuel) (u / 10)%N (String (digit (u mod 10)%N) acc)).
    destruct (N.ltb_spec u 10) as [Hlt|Hge]; [eauto | apply IH].
Qed.

Lemma digit_not_sign d :
  (d < 10)%N → Ascii.eqb (digit d) "-" = false ∧ Ascii.eqb (digit d) "+" = false.
Proof.
  intros Hd.
  assert (Hminus : N_of_ascii "-" = 45%N) by reflexivity.
  assert (Hplus : N_of_ascii "+" = 43%N) by reflexivity.
  split; apply Ascii.eqb_neq; intros Heq;
    apply (f_equal N_of_ascii) in Heq; rewrite N_of_digit in Heq by assumption; lia.
Qed.

Lemma Atoi_unsigned d s :
  (d < 10)%N →
  Atoi (String (digit d) s) =
    match parseUint (String (digit d) s) 0 with
    | SyntaxError => 0
    | RangeError => int_max
    | Parsed un => if (2 ^ 63 <=? un)%N then int_max else Z.of_N un
    end.
Proof.
  intros Hd. destruct (digit_not_sign d Hd) as [Hm Hp].
  unfold Atoi. rewrite Hm, Hp. reflexivity.
Qed.

Lemma Atoi_negative d s :
  (d < 10)%N →
  Atoi (String "-" (String (digit d) s)) =
    match parseUint (String (digit d) s) 0 with
    | SyntaxError => 0
    | RangeError => int_min
    | Parsed un => if (2 ^ 63 <? un)%N then int_min else - Z.of_N un
    end.
Proof. intros Hd. reflexivity. Qed.

(** [Atoi] returns an [int], whatever the text. *)
Lemma Atoi_is_int s : is_int (Atoi s).
Proof.
  assert (H0 : is_int 0) by (unfold is_int, int_min, int_max; lia).
  assert (Hmin : is_int int_min) by (unfold is_int, int_min, int_max; lia).
  assert (Hmax : is_int int_max) by (unfold is_int, int_min, int_max; lia).
  unfold Atoi. destruct s as [|c rest]; [exact H0|].
  destruct (if (Ascii.eqb c "-" || Ascii.eqb c "+")%bool then rest else String c rest);
    [exact H0|].
  destruct (parseUint _ 0) as [un| |]; [|exact H0|destruct (Ascii.eqb c "-"); assumption].
  destruct (Ascii.eqb c "-").
  - destruct (N.ltb_spec (2 ^ 63) un); unfold is_int, int_min, int_max in *; lia.
  - destruct (N.leb_spec (2 ^ 63) un); unfold is_int, int_min, int_max in *; lia.
Qed.

(** The round trip of every value the contract stores. *)
Lemma Atoi_Itoa i : is_int i → Atoi (Itoa i) = i.
Proof.
  unfold is_int, int_min, int_max. intros Hi. unfold Itoa.
  destruct (Z.ltb_spec i 0) as [Hneg|Hpos].
  - destruct (formatBits_head 19 (Z.to_N (- i)) EmptyString) as (d & s & Hd & Hs).
    pose proof (parseUint_formatBits 20 (Z.to_N (- i))) as Hparse.
    rewrite Hs in *. rewrite Atoi_negative by assumption.
    rewrite Hparse
      by (unfold maxUint64; change (10 ^ N.of_nat 20)%N with 100000000000000000000%N; lia).
    destruct (N.ltb_spec (2 ^ 63) (Z.to_N (- i))); lia.
  - destruct (formatBits_head 19 (Z.to_N i) EmptyString) as (d & s & Hd & Hs).
    pose proof (parseUint_formatBits 20 (Z.to_N i)) as Hparse.
    rewrite Hs in *. rewrite Atoi_unsigned by assumption.
    rewrite Hparse
      by (unfold maxUint64; change (10 ^ N.of_nat 20)%N with 100000000000000000000%N; lia).
    destruct (N.leb_spec (2 ^ 63) (Z.to_N i)); lia.
Qed.

End strconvFacts.
Import strconvFacts.

Example Itoa_positive : Itoa 42 = "42"%string.
Proof. reflexivity. Qed.

Example Itoa_negative : Itoa (-1305) = "-1305"%string.
Proof. reflexivity. Qed.

Example Itoa_int_min : Itoa int_min = "-9223372036854775808"%string.
Proof. reflexivity. Qed.

Example Atoi_nil : Atoi "" = 0.
Proof. reflexivity. Qed.

Example Atoi_plus_sign : Atoi "+17" = 17.
Proof. reflexivity. Qed.

Example Atoi_syntax_error : Atoi "12a" = 0.
Proof. reflexivity. Qed.

Example Atoi_range_error : Atoi "9223372036854775808" = int_max.
Proof. reflexivity. Qed.

Example Atoi_range_error_first : Atoi "-99999999999999999999999x" = int_min.
Proof. reflexivity. Qed.

(** ** What each method does to the stub *)

Module Unfold.

(** Running a method step by step. *)
Ltac run_tx :=
  cbv beta iota delta
    [mbind Tx_bind mret Tx_ret mthrow Tx_throw onError
     GetID GetMSPID GetState PutState SetEvent];
  cbn [state emitted].

Lemma balance_lookup w key : match w !! key with None => 0 | Some b => Atoi b end = balance w key.
Proof. reflexivity. Qed.

Lemma balance_insert w key bytes : balance (<[key := bytes]> w) key = Atoi bytes.
Proof. unfold balance. rewrite lookup_insert_eq. reflexivity. Qed.

Lemma balance_insert_ne w key key' bytes :
  key ≠ key' → balance (<[key := bytes]> w) key' = balance w key'.
Proof. intros Hne. unfold balance. rewrite lookup_insert_ne by exact Hne. reflexivity. Qed.

Lemma balance_is_int w key : is_int (balance w key).
Proof.
  unfold balance. destruct (w !! key); [apply Atoi_is_int|].
  unfold is_int, int_min, int_max. lia.
Qed.

Lemma transferCalc_unfold from receiver amount id w ev :
  _transferCalc from receiver amount id (MkStub w ev) =
    if String.eqb from receiver then (MkStub w ev, Err ErrSameAddresses)
    else if amount <? 0 then (MkStub w ev, Err ErrAmountLessThanZero)
    else match w !! from with
         | None => (MkStub w ev, Err (ErrNoBalance from))
         | Some bytes =>
             if Atoi bytes <? amount
             then (MkStub w ev, Err (ErrInsufficientFunds from))
             else (MkStub (<[receiver := Itoa (add (balance w receiver) amount)]>
                             (<[from := Itoa (sub (Atoi bytes) amount)]> w)) ev,
                   Ok ())
         end.
Proof.
  unfold _transferCalc.
  destruct (String.eqb from receiver); [reflexivity|].
  destruct (amount <? 0); [reflexivity|].
  run_tx. destruct (w !! from) as [bytes|]; [|reflexivity].
  destruct (Atoi bytes <? amount); reflexivity.
Qed.

Lemma Transfer_unfold receiver amount id w ev :
  Transfer receiver amount id (MkStub w ev) =
    match _transferCalc (ID id) receiver amount id (MkStub w ev) with
    | (stub', Ok _) =>
        (MkStub (state stub') (Some ("Transfer"%string, Event (ID id) receiver amount)), Ok ())
    | (stub', Err e) => (stub', Err (ErrFailedToTransfer e))
    end.
Proof.
  unfold Transfer. run_tx.
  destruct (_transferCalc (ID id) receiver amount id (MkStub w ev)) as [stub' [[]|e]];
    reflexivity.
Qed.

Lemma CreateCompositeKey_allowance owner spender id stub :
  CreateCompositeKey allowancePrefix [owner; spender] id stub =
    if containsNUL owner || containsNUL spender then (stub, Err ErrInvalidKey)
    else (stub, Ok (allowanceKeyOf owner spender)).
Proof.
  unfold CreateCompositeKey.
  change (existsb containsNUL [allowancePrefix; owner; spender])
    with (containsNUL owner || (containsNUL spender || false)).
  rewrite orb_false_r.
  destruct (containsNUL owner || containsNUL spender); reflexivity.
Qed.

Lemma TransferFrom_unfold from receiver amount id w ev :
  TransferFrom from receiver amount id (MkStub w ev) =
    if amount <=? 0 then (MkStub w ev, Err ErrFailedAmountPositive)
    else if containsNUL from || containsNUL (ID id)
    then (MkStub w ev, Err (ErrTransferFromKey ErrInvalidKey))
    else
      let allowanceKey := allowanceKeyOf from (ID id) in
      let currentAllowance := Atoi (bytesToString (w !! allowanceKey)) in
      if currentAllowance <=? amount then (MkStub w ev, Err ErrNotEnoughAllowance)
      else
        match _transferCalc from receiver amount id (MkStub w ev) with
        | (stub', Ok _) =>
            (MkStub (<[allowanceKey := Itoa (sub currentAllowance amount)]> (state stub'))
                    (Some ("Transfer"%string, Event from receiver amount)), Ok ())
        | (stub', Err e) => (stub', Err (ErrFailedToTransferFrom e))
        end.
Proof.
  unfold TransferFrom.
  destruct (amount <=? 0); [reflexivity|].
  run_tx. rewrite CreateCompositeKey_allowance.
  destruct (containsNUL from || containsNUL (ID id)); [reflexivity|].
  run_tx. cbv zeta.
  destruct (Atoi (bytesToString (w !! allowanceKeyOf from (ID id))) <=? amount); [reflexivity|].
  destruct (_transferCalc from receiver amount id (MkStub w ev)) as [stub' [[]|e]];
    reflexivity.
Qed.

Lemma Approve_unfold spender amount id w ev :
  Approve spender amount id (MkStub w ev) =
    if containsNUL (ID id) || containsNUL spender
    then (MkStub w ev, Err (ErrApproveKey ErrInvalidKey))
    else (MkStub (<[allowanceKeyOf (ID id) spender := Itoa amount]> w)
                 (Some ("Approval"%string, Event (ID id) spender amount)), Ok ()).
Proof.
  unfold Approve. run_tx. rewrite CreateCompositeKey_allowance.
  destruct (containsNUL (ID id) || containsNUL spender); reflexivity.
Qed.

Lemma Allowance_unfold owner spender id w ev :
  Allowance owner spender id (MkStub w ev) =
    if containsNUL owner || containsNUL spender
    then (MkStub w ev, Err (ErrAllowanceKey ErrInvalidKey))
    else (MkStub w ev, Ok (balance w (allowanceKeyOf owner spender))).
Proof.
  unfold Allowance. run_tx. rewrite CreateCompositeKey_allowance.
  destruct (containsNUL owner || containsNUL spender); reflexivity.
Qed.

Lemma Mint_unfold amount id w ev :
  Mint amount id (MkStub w ev) =
    if negb (String.eqb (MSPID id) "Org1MSP")
    then (MkStub w ev, Err (ErrNotAuthorizedToMint (MSPID id)))
    else if amount <=? 0 then (MkStub w ev, Err ErrAmountPositive)
    else
      let w1 := <[ID id := Itoa (add (balance w (ID id)) amount)]> w in
      (MkStub (<[totalSupplyKey := Itoa (add (balance w1 totalSupplyKey) amount)]> w1)
              (Some ("Transfer"%string, Event "0x0" (ID id) amount)), Ok ()).
Proof.
  unfold Mint. run_tx.
  destruct (negb (String.eqb (MSPID id) "Org1MSP")); [reflexivity|].
  destruct (amount <=? 0); reflexivity.
Qed.

Lemma Burn_unfold amount id w ev :
  Burn amount id (MkStub w ev) =
    if negb (String.eqb (MSPID id) "Org1MSP")
    then (MkStub w ev, Err (ErrNotAuthorizedToBurn (MSPID id)))
    else if amount <=? 0 then (MkStub w ev, Err ErrAmountPositive)
    else
      let w1 := <[ID id := Itoa (sub (balance w (ID id)) amount)]> w in
      (MkStub (<[totalSupplyKey := Itoa (sub (balance w1 totalSupplyKey) amount)]> w1)
              (Some ("Transfer"%string, Event "0x0" (ID id) amount)), Ok ()).
Proof.
  unfold Burn. run_tx.
  destruct (negb (String.eqb (MSPID id) "Org1MSP")); [reflexivity|].
  destruct (amount <=? 0); reflexivity.
Qed.

End Unfold.
Import Unfold.

(** ** The shared transfer routine *)



(** ** Allowances *)

(** C3.  For every spender (the caller), owner, recipient and amount above
    0: when the allowance of the spender on the owner's tokens, as
    [Allowance] returns it, is not strictly greater than the amount, and so
    also when it equals the amount, [TransferFrom] fails with the error of
    an insufficient allowance and writes nothing; when the allowance is
    greater than the amount and the transfer routine succeeds,
    [TransferFrom] succeeds and [Allowance] then returns the allowance
    minus the amount. *)
Theorem TransferFrom_allowance (from receiver : string) (amount : Z)
    (spender reader : ClientIdentity) (stub : Stub) (allowance : Z) :
  0 < amount →
  Allowance from (ID spender) reader stub = (stub, Ok allowance) →
  (allowance <= amount →
     TransferFrom from receiver amount spender stub = (stub, Err ErrNotEnoughAllowance)) ∧
  (amount < allowance →
     ∀ stub1, _transferCalc from receiver amount spender stub = (stub1, Ok ()) →
       ∃ stub', TransferFrom from receiver amount spender stub = (stub', Ok ()) ∧
         Allowance from (ID spender) reader stub' = (stub', Ok (allowance - amount))).
Proof.
  destruct stub as [w ev]. intros Hpos Hread.
  rewrite Allowance_unfold in Hread. rewrite TransferFrom_unfold. cbv zeta.
  destruct (Z.leb_spec amount 0); [lia|].
  destruct (containsNUL from || containsNUL (ID spender)) eqn:Hkey; [discriminate|].
  assert (Hcur : Atoi (bytesToString (w !! allowanceKeyOf from (ID spender))) = allowance).
  { injection Hread as <-. unfold balance.
    destruct (w !! allowanceKeyOf from (ID spender)); reflexivity. }
  rewrite Hcur. split.
  - intros Hle. destruct (Z.leb_spec allowance amount); [reflexivity | lia].
  - intros Hgt stub1 Hcalc. destruct (Z.leb_spec allowance amount); [lia|].
    rewrite Hcalc. eexists. split; [reflexivity|].
    rewrite Allowance_unfold, Hkey. do 2 f_equal.
    rewrite balance_insert, Atoi_Itoa by apply sub_is_int.
    apply sub_exact.
    pose proof (Atoi_is_int (bytesToString (w !! allowanceKeyOf from (ID spender)))) as Hint.
    rewrite Hcur in Hint. unfold is_int, int_min, int_max in *. lia.
Qed.

(** The scenario of the specification: [A] approved 50 for [B]; a transfer
    of 50 by [B] is refused, one of 49 leaves an allowance of 1. *)
Lemma TransferFrom_allowance_witness :
  let B := Identity "B" "Org2MSP" in
  let w : gmap string string :=
    {[ "A"%string := "100"%string; allowanceKeyOf "A" "B" := "50"%string ]} in
  TransferFrom "A" "C" 50 B (begin w) = (begin w, Err ErrNotEnoughAllowance) ∧
  ∃ stub', TransferFrom "A" "C" 49 B (begin w) = (stub', Ok ()) ∧
           Allowance "A" "B" B stub' = (stub', Ok 1).
Proof.
  intros B w.
  assert (Hread : Allowance "A" "B" B (begin w) = (begin w, Ok 50))
    by (vm_compute; reflexivity).
  split.
  - apply (TransferFrom_allowance "A" "C" 50 B B (begin w) 50); [lia | exact Hread | lia].
  - destruct (TransferFrom_allowance "A" "C" 49 B B (begin w) 50) as [_ Hok];
      [lia | exact Hread |].
    destruct (_transferCalc "A" "C" 49 B (begin w)) as [stub1 r] eqn:Hcalc.
    assert (Hr : r = Ok ()) by (vm_compute in Hcalc; congruence).
    subst r. exact (Hok ltac:(lia) stub1 eq_refl).
Defined.

(** C7.  For every owner (the caller of [Approve]), spender and [int] [n],
    the names being free of the key separator: [Approve] succeeds, and
    [Allowance] for that owner and spender, run next by anyone, returns
    exactly [n] and changes nothing. *)
Theorem Approve_then_Allowance (owner reader : ClientIdentity) (spender : string)
    (n : Z) (stub : Stub) :
  is_int n →
  containsNUL (ID owner) = false →
  containsNUL spender = false →
  ∃ stub', Approve spender n owner stub = (stub', Ok ()) ∧
           Allowance (ID owner) spender reader stub' = (stub', Ok n).
Proof.
  destruct stub as [w ev]. intros Hn Howner Hspender.
  rewrite Approve_unfold, Howner, Hspender. cbn [orb].
  eexists. split; [reflexivity|].
  rewrite Allowance_unfold, Howner, Hspender. cbn [orb].
  rewrite balance_insert, Atoi_Itoa by exact Hn. reflexivity.
Qed.

Lemma Approve_then_Allowance_witness :
  let A := Identity "A" "Org1MSP" in
  let B := Identity "B" "Org2MSP" in
  ∃ stub', Approve "B" 50 A (begin ∅) = (stub', Ok ()) ∧
           Allowance "A" "B" B stub' = (stub', Ok 50).
Proof.
  intros A B. apply (Approve_then_Allowance A B "B" 50 (begin ∅)).
  - unfold is_int, int_min, int_max. lia.
  - reflexivity.
  - reflexivity.
Defined.

(** ** Issuance *)

(** C6.  For every caller whose organisation is not "Org1MSP" and every
    amount, [Mint] fails with the error of an unauthorised client and
    leaves the stub as it was: nothing is written, so the supply and every
    balance are what they were, and the ledger commits nothing. *)
Theorem Mint_unauthorized (id : ClientIdentity) (amount : Z) (stub : Stub) :
  MSPID id ≠ "Org1MSP"%string →
  Mint amount id stub = (stub, Err (ErrNotAuthorizedToMint (MSPID id))) ∧
  commit (Transaction id (CallMint amount)) (state stub) = None ∧
  ∀ stub', fst (Mint amount id stub) = stub' →
    TotalSupply (state stub') = TotalSupply (state stub) ∧
    ∀ account, state stub' !! account = state stub !! account.
Proof.
  intros Hmsp. apply String.eqb_neq in Hmsp.
  assert (Hrun : ∀ s, Mint amount id s = (s, Err (ErrNotAuthorizedToMint (MSPID id)))).
  { intros [w ev]. rewrite Mint_unfold, Hmsp. reflexivity. }
  split; [apply Hrun|]. split.
  - unfold commit. cbn [call caller invoke]. rewrite Hrun. reflexivity.
  - intros stub' <-. rewrite Hrun. split; reflexivity.
Qed.

Lemma Mint_unauthorized_witness :
  let B := Identity "B" "Org2MSP" in
  let w : gmap string string := {[ "B"%string := "7"%string ]} in
  Mint 5 B (begin w) = (begin w, Err (ErrNotAuthorizedToMint "Org2MSP")).
Proof.
  intros B w. apply (Mint_unauthorized B 5 (begin w)). discriminate.
Defined.

(** C9.  For every caller and amount on which [Burn] succeeds, the event
    it sets is a "Transfer" from "0x0" to the burner with the amount; [Mint]
    by that caller with that amount succeeds as well and sets the very same
    event, so the two notifications cannot be told apart. *)
Theorem Burn_event_like_Mint (id : ClientIdentity) (amount : Z) (stub stub' : Stub) :
  Burn amount id stub = (stub', Ok ()) →
  emitted stub' = Some ("Transfer"%string, Event "0x0" (ID id) amount) ∧
  ∃ stub'', Mint amount id stub = (stub'', Ok ()) ∧ emitted stub'' = emitted stub'.
Proof.
  destruct stub as [w ev]. rewrite Burn_unfold, Mint_unfold.
  destruct (negb (String.eqb (MSPID id) "Org1MSP")); [discriminate|].
  destruct (amount <=? 0); [discriminate|].
  cbv zeta. intros [= <-]. split; [reflexivity|].
  eexists. split; [reflexivity|]. cbn [emitted]. reflexivity.
Qed.

Lemma Burn_event_like_Mint_witness :
  let A := Identity "A" "Org1MSP" in
  ∃ stub', Burn 5 A (begin ∅) = (stub', Ok ()) ∧
    emitted stub' = Some ("Transfer"%string, Event "0x0" "A" 5) ∧
    ∃ stub'', Mint 5 A (begin ∅) = (stub'', Ok ()) ∧ emitted stub'' = emitted stub'.
Proof.
  intros A.
  destruct (Burn 5 A (begin ∅)) as [stub' r] eqn:Hburn.
  assert (Hr : r = Ok ()) by (vm_compute in Hburn; congruence).
  subst r. exists stub'. split; [reflexivity|].
  exact (Burn_event_like_Mint A 5 (begin ∅) stub' Hburn).
Defined.

(** ** [Burn] does not look at the balance *)

(** For an authorised caller and an amount above 0, [Burn] returns no
    error, whatever the balance of the caller is. *)
Lemma Burn_unguarded (id : ClientIdentity) (amount : Z) (stub : Stub) :
  MSPID id = "Org1MSP"%string → 0 < amount →
  ∃ stub', Burn amount id stub = (stub', Ok ()) ∧
    (ID id ≠ totalSupplyKey →
       balance (state stub') (ID id) = sub (balance (state stub) (ID id)) amount).
Proof.
  destruct stub as [w ev]. intros Hmsp Hpos.
  rewrite Burn_unfold, Hmsp, String.eqb_refl. cbn [negb].
  destruct (Z.leb_spec amount 0); [lia|]. cbv zeta.
  eexists. split; [reflexivity|]. cbn [state]. intros Hne.
  rewrite balance_insert_ne by congruence.
  rewrite balance_insert. apply Atoi_Itoa, sub_is_int.
Qed.

(** C5.  The specification asks [Burn] to fail with an error of
    insufficient funds when the balance of the caller is less than the
    amount.  The code does not: [A], of "Org1MSP", mints 3 and burns 5; the
    burn returns no error and is committed, and the record of [A] and the
    supply are both "-2". *)
Theorem Burn_exceeding_balance_succeeds :
  let A := Identity "A" "Org1MSP" in
  let w : gmap string string :=
    {[ "A"%string := "3"%string; "totalSupply"%string := "3"%string ]} in
  let w' : gmap string string :=
    {[ "A"%string := "-2"%string; "totalSupply"%string := "-2"%string ]} in
  commit (Transaction A (CallMint 3)) ∅ = Some w ∧
  BalanceOf "A" A (begin w) = (begin w, Ok 3) ∧
  Burn 5 A (begin w) = (MkStub w' (Some ("Transfer"%string, Event "0x0" "A" 5)), Ok ()) ∧
  commit (Transaction A (CallBurn 5)) w = Some w' ∧
  BalanceOf "A" A (begin w') = (begin w', Ok (-2)) ∧
  TotalSupply w' = -2.
Proof. intros A w w'. repeat split; vm_compute; reflexivity. Qed.

(** C2.  The specification asks every successful operation to keep every
    balance at 0 or above.  [Burn] does not: on the empty ledger, where
    every balance counts as 0, [A] of "Org1MSP" burns 5; the burn is
    committed and the balance of [A] is -5. *)
Theorem Burn_makes_balance_negative :
  let A := Identity "A" "Org1MSP" in
  let w : gmap string string :=
    {[ "A"%string := "-5"%string; "totalSupply"%string := "-5"%string ]} in
  balancesNonNegative ∅ ∧
  commit (Transaction A (CallBurn 5)) ∅ = Some w ∧
  isAccount "A" = true ∧ balance w "A" = -5 ∧
  ¬ balancesNonNegative w.
Proof.
  intros A w.
  assert (Hbal : balance w "A" = -5) by (vm_compute; reflexivity).
  split; [|split; [|split; [|split]]].
  - intros key _. unfold balance. rewrite lookup_empty. lia.
  - vm_compute. reflexivity.
  - reflexivity.
  - exact Hbal.
  - intros Hall. specialize (Hall "A"%string eq_refl). rewrite Hbal in Hall. lia.
Qed.

(** ** Transfers on the ledger *)

Lemma commit_Transfer (id : ClientIdentity) (receiver : string) (amount : Z)
    (w : gmap string string) :
  commit (Transaction id (CallTransfer receiver amount)) w =
    if String.eqb (ID id) receiver then None
    else if amount <? 0 then None
    else match w !! ID id with
         | None => None
         | Some bytes =>
             if Atoi bytes <? amount then None
             else Some (<[receiver := Itoa (add (balance w receiver) amount)]>
                          (<[ID id := Itoa (sub (Atoi bytes) amount)]> w))
         end.
Proof.
  unfold commit, begin. cbn [call caller invoke].
  rewrite Transfer_unfold, transferCalc_unfold.
  destruct (String.eqb (ID id) receiver); [reflexivity|].
  destruct (amount <? 0); [reflexivity|].
  destruct (w !! ID id) as [bytes|]; [|reflexivity].
  destruct (Atoi bytes <? amount); reflexivity.
Qed.

(** C10 as it stands, for every caller with a balance record, does not
    hold: [A] of "Org1MSP" burns 3 on the empty ledger, which leaves it
    the record "-3"; its transfer of 0 to [B] is then refused for
    insufficient funds, -3 being less than 0. *)
Lemma Transfer_zero_refused :
  let A := Identity "A" "Org1MSP" in
  let w : gmap string string :=
    {[ "A"%string := "-3"%string; "totalSupply"%string := "-3"%string ]} in
  commit (Transaction A (CallBurn 3)) ∅ = Some w ∧
  w !! "A"%string = Some "-3"%string ∧
  Transfer "B" 0 A (begin w) =
    (begin w, Err (ErrFailedToTransfer (ErrInsufficientFunds "A"))).
Proof. intros A w. repeat split; vm_compute; reflexivity. Qed.

(** C10, amended.  For every caller with a balance record and every
    recipient other than the caller: when the balance of the caller is at
    least 0, [Transfer] of the amount 0 succeeds, leaves both balances as
    they were (a recipient without a record counting as 0) and sets a
    "Transfer" event with the value 0; when the balance is negative it is
    refused for insufficient funds.  [Transfer] refuses an amount below 0
    as such, whereas [TransferFrom] refuses every amount that is 0 or
    less. *)
Theorem Transfer_accepts_zero (id : ClientIdentity) (receiver : string) (stub : Stub) :
  is_Some (state stub !! ID id) →
  receiver ≠ ID id →
  let w := state stub in
  (0 <= balance w (ID id) →
     ∃ w', Transfer receiver 0 id stub =
             (MkStub w' (Some ("Transfer"%string, Event (ID id) receiver 0)), Ok ()) ∧
           balance w' (ID id) = balance w (ID id) ∧
           balance w' receiver = balance w receiver) ∧
  (balance w (ID id) < 0 →
     Transfer receiver 0 id stub =
       (stub, Err (ErrFailedToTransfer (ErrInsufficientFunds (ID id))))) ∧
  (∀ amount, amount < 0 →
     Transfer receiver amount id stub =
       (stub, Err (ErrFailedToTransfer ErrAmountLessThanZero))) ∧
  (∀ from amount, amount <= 0 →
     TransferFrom from receiver amount id stub = (stub, Err ErrFailedAmountPositive)).
Proof.
  destruct stub as [w ev]. cbn [state]. intros [bytes Hsome] Hne. cbv zeta.
  assert (Hneb : String.eqb (ID id) receiver = false) by (apply String.eqb_neq; congruence).
  assert (Hbal : balance w (ID id) = Atoi bytes) by (unfold balance; rewrite Hsome; reflexivity).
  pose proof (Atoi_is_int bytes) as Hint.
  pose proof (balance_is_int w receiver) as Hrecv.
  rewrite Hbal. repeat split.
  - intros Hpos. rewrite Transfer_unfold, transferCalc_unfold, Hneb, Hsome.
    change (0 <? 0) with false. cbv iota.
    destruct (Z.ltb_spec (Atoi bytes) 0); [lia|].
    eexists. split; [reflexivity|]. cbn [state]. split.
    + rewrite balance_insert_ne by congruence. rewrite balance_insert.
      rewrite Atoi_Itoa by apply sub_is_int.
      rewrite sub_exact; [lia|]. rewrite Z.sub_0_r. exact Hint.
    + rewrite balance_insert, Atoi_Itoa by apply add_is_int.
      rewrite add_exact; [lia|]. rewrite Z.add_0_r. exact Hrecv.
  - intros Hneg. rewrite Transfer_unfold, transferCalc_unfold, Hneb, Hsome.
    change (0 <? 0) with false. cbv iota.
    destruct (Z.ltb_spec (Atoi bytes) 0); [reflexivity | lia].
  - intros amount Hneg. rewrite Transfer_unfold, transferCalc_unfold, Hneb.
    destruct (Z.ltb_spec amount 0); [reflexivity | lia].
  - intros from amount Hle. rewrite TransferFrom_unfold.
    destruct (Z.leb_spec amount 0); [reflexivity | lia].
Qed.

Lemma Transfer_accepts_zero_witness :
  let A := Identity "A" "Org2MSP" in
  let w : gmap string string := {[ "A"%string := "100"%string ]} in
  ∃ w', Transfer "B" 0 A (begin w) =
          (MkStub w' (Some ("Transfer"%string, Event "A" "B" 0)), Ok ()) ∧
        balance w' "A" = 100 ∧ balance w' "B" = 0.
Proof.
  intros A w.
  assert (HA : balance w "A" = 100) by (vm_compute; reflexivity).
  assert (HB : balance w "B" = 0) by (vm_compute; reflexivity).
  destruct (Transfer_accepts_zero A "B" (begin w)) as [Hok _].
  - exists "100"%string. vm_compute. reflexivity.
  - discriminate.
  - destruct Hok as (w' & Hrun & HwA & HwB).
    + change (0 <= balance w "A"). rewrite HA. lia.
    + change (balance w' "A" = balance w "A") in HwA.
      change (balance w' "B" = balance w "B") in HwB.
      exists w'. split; [exact Hrun|]. split; congruence.
Defined.

(** C8 as it stands does not hold.  [B] of "Org1MSP"
    burns 3 and [A] mints 5.  The transfer of 2 from [A] to [B] succeeds
    and leaves [B] at -1; the transfer of 2 back from [B] to [A] is refused
    for insufficient funds, so [A] stays at 3 and [B] at -1 instead of 5
    and -3. *)
Lemma Transfer_round_trip_refused :
  let A := Identity "A" "Org1MSP" in
  let B := Identity "B" "Org1MSP" in
  let w : gmap string string :=
    {[ "A"%string := "5"%string; "B"%string := "-3"%string;
       "totalSupply"%string := "2"%string ]} in
  let w1 : gmap string string :=
    {[ "A"%string := "3"%string; "B"%string := "-1"%string;
       "totalSupply"%string := "2"%string ]} in
  commitAll [Transaction B (CallBurn 3); Transaction A (CallMint 5)] ∅ = Some w ∧
  commit (Transaction A (CallTransfer "B" 2)) w = Some w1 ∧
  Transfer "A" 2 B (begin w1) =
    (begin w1, Err (ErrFailedToTransfer (ErrInsufficientFunds "B"))) ∧
  submit (Transaction B (CallTransfer "A" 2)) (submit (Transaction A (CallTransfer "B" 2)) w) = w1 ∧
  balance w "A" = 5 ∧ balance w1 "A" = 3 ∧
  balance w "B" = -3 ∧ balance w1 "B" = -1.
Proof. intros A B w w1. repeat split; vm_compute; reflexivity. Qed.

(** The same without [Burn]: [B] holds the largest [int], the credit of 1
    wraps around to the smallest one, and the transfer back is refused. *)
Lemma Transfer_round_trip_overflow :
  let A := Identity "A" "Org1MSP" in
  let B := Identity "B" "Org1MSP" in
  let w : gmap string string :=
    {[ "A"%string := "1"%string; "B"%string := "9223372036854775807"%string;
       "totalSupply"%string := "-9223372036854775808"%string ]} in
  let w1 : gmap string string :=
    {[ "A"%string := "0"%string; "B"%string := "-9223372036854775808"%string;
       "totalSupply"%string := "-9223372036854775808"%string ]} in
  commitAll [Transaction B (CallMint int_max); Transaction A (CallMint 1)] ∅ = Some w ∧
  commit (Transaction A (CallTransfer "B" 1)) w = Some w1 ∧
  commit (Transaction B (CallTransfer "A" 1)) w1 = None.
Proof. intros A B w w1. repeat split; vm_compute; reflexivity. Qed.

Lemma wrap_above z : int_max < z <= 2 * int_max + 1 → wrap z = z - 2 ^ 64.
Proof.
  unfold wrap, int_max. intros Hz.
  replace (z + 2 ^ 63) with (z + 2 ^ 63 - 2 ^ 64 + 1 * 2 ^ 64) by lia.
  rewrite Z.mod_add by lia. rewrite Z.mod_small by lia. lia.
Qed.

(** C8, amended.  For all accounts [a] and [b] and every amount [n] for
    which the transfer from [a] to [b] is committed: the transfer of [n]
    back from [b] to [a], submitted next, is committed exactly when the
    balance [b] had before the first transfer (0 without a record) was at
    least 0 and its sum with [n] is an [int]; and whenever it is committed,
    the balances of [a] and of [b] are again what they were before the
    first transfer. *)
Theorem Transfer_round_trip (a b : ClientIdentity) (n : Z) (w w1 : gmap string string) :
  commit (Transaction a (CallTransfer (ID b) n)) w = Some w1 →
  (is_Some (commit (Transaction b (CallTransfer (ID a) n)) w1) ↔
     0 <= balance w (ID b) ∧ balance w (ID b) + n <= int_max) ∧
  (∀ w2, commit (Transaction b (CallTransfer (ID a) n)) w1 = Some w2 →
     balance w2 (ID a) = balance w (ID a) ∧ balance w2 (ID b) = balance w (ID b)).
Proof.
  rewrite commit_Transfer.
  destruct (String.eqb_spec (ID a) (ID b)) as [|Hne]; [discriminate|].
  destruct (Z.ltb_spec n 0) as [|Hn]; [discriminate|].
  destruct (w !! ID a) as [bytes|] eqn:Hsome; [|discriminate].
  destruct (Z.ltb_spec (Atoi bytes) n) as [|Hfunds]; [discriminate|].
  intros [= <-].
  assert (HbalA : balance w (ID a) = Atoi bytes) by (unfold balance; rewrite Hsome; reflexivity).
  pose proof (Atoi_is_int bytes) as HintA.
  pose proof (balance_is_int w (ID b)) as HintB.
  assert (HsubA : sub (Atoi bytes) n = Atoi bytes - n)
    by (apply sub_exact; unfold is_int, int_min, int_max in *; lia).
  rewrite commit_Transfer.
  assert (Hneb : String.eqb (ID b) (ID a) = false) by (apply String.eqb_neq; congruence).
  rewrite Hneb. destruct (Z.ltb_spec n 0); [lia|].
  rewrite lookup_insert_eq.
  rewrite Atoi_Itoa by apply add_is_int.
  rewrite (balance_insert_ne _ (ID b) (ID a)) by congruence.
  rewrite balance_insert, Atoi_Itoa by apply sub_is_int.
  rewrite HbalA, HsubA.
  assert (Hcredit : n <= add (balance w (ID b)) n ↔
                    0 <= balance w (ID b) ∧ balance w (ID b) + n <= int_max).
  { unfold add. destruct (Z_le_gt_dec (balance w (ID b) + n) int_max) as [Hfit|Hover].
    - rewrite wrap_id by (unfold is_int, int_min, int_max in *; lia). lia.
    - rewrite wrap_above by (unfold is_int, int_min, int_max in *; lia).
      unfold is_int, int_min, int_max in *. lia. }
  destruct (Z.ltb_spec (add (balance w (ID b)) n) n) as [Hlow|Hok].
  - split.
    + split; [intros [w2 Hw2]; discriminate | intros Hfit; apply Hcredit in Hfit; lia].
    + intros w2 Hw2. discriminate.
  - split.
    + split; [intros _; apply Hcredit; exact Hok | eauto].
    + intros w2 [= <-]. split.
      * rewrite balance_insert, Atoi_Itoa by apply add_is_int.
        unfold add. replace (Atoi bytes - n + n) with (Atoi bytes) by lia.
        apply wrap_id, HintA.
      * rewrite balance_insert_ne by congruence.
        rewrite balance_insert, Atoi_Itoa by apply sub_is_int.
        unfold sub, add. rewrite wrap_sub_l.
        replace (balance w (ID b) + n - n) with (balance w (ID b)) by lia.
        apply wrap_id, HintB.
Qed.

(** [A] holds 100 and [B] has no record: 40 go to [B] and come back. *)
Lemma Transfer_round_trip_witness :
  let A := Identity "A" "Org2MSP" in
  let B := Identity "B" "Org2MSP" in
  let w : gmap string string := {[ "A"%string := "100"%string ]} in
  let w1 : gmap string string :=
    {[ "A"%string := "60"%string; "B"%string := "40"%string ]} in
  commit (Transaction A (CallTransfer "B" 40)) w = Some w1 ∧
  ∃ w2, commit (Transaction B (CallTransfer "A" 40)) w1 = Some w2 ∧
        balance w2 "A" = 100 ∧ balance w2 "B" = 0.
Proof.
  intros A B w w1.
  assert (H1 : commit (Transaction A (CallTransfer (ID B) 40)) w = Some w1)
    by (vm_compute; reflexivity).
  assert (HA : balance w "A" = 100) by (vm_compute; reflexivity).
  assert (HB : balance w "B" = 0) by (vm_compute; reflexivity).
  split; [exact H1|].
  destruct (Transfer_round_trip A B 40 w w1 H1) as [Hiff Hback].
  destruct (proj2 Hiff) as [w2 Hw2].
  - change (0 <= balance w "B" ∧ balance w "B" + 40 <= int_max).
    rewrite HB. unfold int_max. lia.
  - exists w2. split; [exact Hw2|].
    destruct (Hback w2 Hw2) as [HwA HwB].
    change (balance w2 "A" = balance w "A") in HwA.
    change (balance w2 "B" = balance w "B") in HwB.
    split; congruence.
Defined.

(** ** The supply and the sum of the balances *)

Module Ledger.

Lemma isAccount_not_supply key : isAccount key = true → key ≠ totalSupplyKey.
Proof.
  unfold isAccount. intros Hacc ->. rewrite String.eqb_refl in Hacc. discriminate.
Qed.

Lemma isAccount_not_allowanceKey key owner spender :
  isAccount key = true → key ≠ allowanceKeyOf owner spender.
Proof.
  unfold isAccount. intros Hacc ->.
  apply andb_prop in Hacc as [_ Hacc]. discriminate.
Qed.

Lemma allowanceKey_no_account owner spender : isAccount (allowanceKeyOf owner spender) = false.
Proof. unfold isAccount. apply andb_false_intro2. reflexivity. Qed.

Lemma allowanceKey_not_supply owner spender : allowanceKeyOf owner spender ≠ totalSupplyKey.
Proof. discriminate. Qed.

Lemma supply_no_account : isAccount totalSupplyKey = false.
Proof. reflexivity. Qed.

Lemma sumBalances_empty : sumBalances ∅ = 0.
Proof. unfold sumBalances. apply map_fold_empty. Qed.

Lemma sumBalances_insert_fresh (w : gmap string string) key bytes :
  w !! key = None →
  sumBalances (<[key := bytes]> w) =
    sumBalances w + (if isAccount key then Atoi bytes else 0).
Proof.
  intros Hfresh. unfold sumBalances.
  rewrite map_fold_insert_L.
  - destruct (isAccount key); lia.
  - intros j1 j2 z1 z2 y _ _ _. destruct (isAccount j1), (isAccount j2); lia.
  - exact Hfresh.
Qed.

(** Writing a record changes the sum by the difference of the new and the
    old value when the key is an account, and not at all otherwise. *)
Lemma sumBalances_insert (w : gmap string string) key bytes :
  sumBalances (<[key := bytes]> w) =
    sumBalances w + (if isAccount key then Atoi bytes - balance w key else 0).
Proof.
  unfold balance. destruct (w !! key) as [old|] eqn:Hold.
  - assert (Hw : sumBalances w =
              sumBalances (delete key w) + (if isAccount key then Atoi old else 0)).
    { rewrite <- (insert_delete_id w key old Hold) at 1.
      apply sumBalances_insert_fresh, lookup_delete_eq. }
    rewrite <- insert_delete_eq.
    rewrite sumBalances_insert_fresh by apply lookup_delete_eq.
    rewrite Hw. destruct (isAccount key); lia.
  - rewrite sumBalances_insert_fresh by exact Hold.
    destruct (isAccount key); lia.
Qed.

Lemma TotalSupply_insert (w : gmap string string) key bytes :
  key ≠ totalSupplyKey → TotalSupply (<[key := bytes]> w) = TotalSupply w.
Proof. intros Hne. unfold TotalSupply. apply balance_insert_ne. exact Hne. Qed.

Lemma wrap_repr z : ∃ k, wrap z = z + k * 2 ^ 64.
Proof.
  exists (- ((z + 2 ^ 63) / 2 ^ 64)). unfold wrap.
  rewrite (Z.mod_eq (z + 2 ^ 63) (2 ^ 64)) by lia. lia.
Qed.

Lemma wrap_congr a b k : a = b + k * 2 ^ 64 → wrap a = wrap b.
Proof.
  intros ->. apply wrap_eq_mod.
  replace (b + k * 2 ^ 64 - b) with (k * 2 ^ 64) by lia. apply Z.mod_mul. lia.
Qed.

(** The closed forms of the committed ledger, method by method. *)

Lemma commit_Mint (id : ClientIdentity) (amount : Z) (w : gmap string string) :
  commit (Transaction id (CallMint amount)) w =
    if negb (String.eqb (MSPID id) "Org1MSP") then None
    else if amount <=? 0 then None
    else
      let w1 := <[ID id := Itoa (add (balance w (ID id)) amount)]> w in
      Some (<[totalSupplyKey := Itoa (add (balance w1 totalSupplyKey) amount)]> w1).
Proof.
  unfold commit, begin. cbn [call caller invoke]. rewrite Mint_unfold.
  destruct (negb (String.eqb (MSPID id) "Org1MSP")); [reflexivity|].
  destruct (amount <=? 0); reflexivity.
Qed.

Lemma commit_Burn (id : ClientIdentity) (amount : Z) (w : gmap string string) :
  commit (Transaction id (CallBurn amount)) w =
    if negb (String.eqb (MSPID id) "Org1MSP") then None
    else if amount <=? 0 then None
    else
      let w1 := <[ID id := Itoa (sub (balance w (ID id)) amount)]> w in
      Some (<[totalSupplyKey := Itoa (sub (balance w1 totalSupplyKey) amount)]> w1).
Proof.
  unfold commit, begin. cbn [call caller invoke]. rewrite Burn_unfold.
  destruct (negb (String.eqb (MSPID id) "Org1MSP")); [reflexivity|].
  destruct (amount <=? 0); reflexivity.
Qed.

Lemma commit_Approve (id : ClientIdentity) (spender : string) (amount : Z)
    (w : gmap string string) :
  commit (Transaction id (CallApprove spender amount)) w =
    if containsNUL (ID id) || containsNUL spender then None
    else Some (<[allowanceKeyOf (ID id) spender := Itoa amount]> w).
Proof.
  unfold commit, begin. cbn [call caller invoke]. rewrite Approve_unfold.
  destruct (containsNUL (ID id) || containsNUL spender); reflexivity.
Qed.

(** A committed [TransferFrom] is the transfer routine on the owner and
    the recipient, followed by one write under the allowance key. *)
Lemma commit_TransferFrom (id : ClientIdentity) (from receiver : string) (amount : Z)
    (w w' : gmap string string) :
  commit (Transaction id (CallTransferFrom from receiver amount)) w = Some w' →
  ∃ bytes allowance,
    from ≠ receiver ∧ 0 <= amount ∧ w !! from = Some bytes ∧ amount <= Atoi bytes ∧
    w' = <[allowanceKeyOf from (ID id) := allowance]>
           (<[receiver := Itoa (add (balance w receiver) amount)]>
              (<[from := Itoa (sub (Atoi bytes) amount)]> w)).
Proof.
  unfold commit, begin. cbn [call caller invoke].
  rewrite TransferFrom_unfold, transferCalc_unfold. cbv zeta.
  destruct (amount <=? 0); [discriminate|].
  destruct (containsNUL from || containsNUL (ID id)); [discriminate|].
  destruct (_ <=? amount); [discriminate|].
  destruct (String.eqb_spec from receiver) as [|Hne]; [discriminate|].
  destruct (Z.ltb_spec amount 0) as [|Hpos]; [discriminate|].
  destruct (w !! from) as [bytes|]; [|discriminate].
  destruct (Z.ltb_spec (Atoi bytes) amount) as [|Hfunds]; [discriminate|].
  cbn [state]. intros [= <-]. eauto 10.
Qed.

End Ledger.
Import Ledger.

Lemma supplyMatches_empty : supplyMatches ∅.
Proof. unfold supplyMatches. rewrite sumBalances_empty. reflexivity. Qed.

(** A debit of [from] and a credit of [receiver], two distinct accounts,
    leave the sum where it was, modulo 2^64. *)
Lemma transfer_keeps_sum (w : gmap string string) from receiver bytes amount :
  isAccount from = true → isAccount receiver = true → from ≠ receiver →
  w !! from = Some bytes →
  let w' := <[receiver := Itoa (add (balance w receiver) amount)]>
              (<[from := Itoa (sub (Atoi bytes) amount)]> w) in
  wrap (sumBalances w') = wrap (sumBalances w) ∧ TotalSupply w' = TotalSupply w.
Proof.
  intros Hfrom Hrecv Hne Hsome w'. subst w'. split.
  - rewrite !sumBalances_insert, Hfrom, Hrecv.
    rewrite balance_insert_ne by exact Hne.
    rewrite !Atoi_Itoa by (apply add_is_int || apply sub_is_int).
    assert (Hbal : balance w from = Atoi bytes) by (unfold balance; rewrite Hsome; reflexivity).
    rewrite Hbal. unfold add, sub.
    destruct (wrap_repr (balance w receiver + amount)) as [k1 ->].
    destruct (wrap_repr (Atoi bytes - amount)) as [k2 ->].
    apply (wrap_congr _ _ (k1 + k2)). lia.
  - rewrite !TotalSupply_insert by (apply isAccount_not_supply; assumption).
    reflexivity.
Qed.

Lemma commit_keeps_supplyMatches (t : transaction) (w w' : gmap string string) :
  wellAddressed t = true →
  commit t w = Some w' →
  supplyMatches w → supplyMatches w'.
Proof.
  destruct t as [id [amount|amount|receiver amount|from receiver amount|spender amount]];
    unfold wellAddressed, supplyMatches; cbn [accountsOf call caller forallb];
    intros Hwell Hcommit Hinv.
  - (* Mint *)
    rewrite andb_true_r in Hwell. pose proof (isAccount_not_supply _ Hwell) as Hne.
    rewrite commit_Mint in Hcommit.
    destruct (negb _); [discriminate|]. destruct (amount <=? 0); [discriminate|].
    cbv zeta in Hcommit. injection Hcommit as <-.
    rewrite balance_insert_ne by exact Hne.
    unfold TotalSupply at 1. rewrite balance_insert, Atoi_Itoa by apply add_is_int.
    rewrite !sumBalances_insert, supply_no_account, Hwell, Z.add_0_r.
    rewrite Atoi_Itoa by apply add_is_int.
    fold (TotalSupply w). rewrite <- Hinv. unfold add.
    destruct (wrap_repr (balance w (ID id) + amount)) as [k1 ->].
    destruct (wrap_repr (sumBalances w)) as [k2 ->].
    apply (wrap_congr _ _ (k1 - k2)). lia.
  - (* Burn *)
    rewrite andb_true_r in Hwell. pose proof (isAccount_not_supply _ Hwell) as Hne.
    rewrite commit_Burn in Hcommit.
    destruct (negb _); [discriminate|]. destruct (amount <=? 0); [discriminate|].
    cbv zeta in Hcommit. injection Hcommit as <-.
    rewrite balance_insert_ne by exact Hne.
    unfold TotalSupply at 1. rewrite balance_insert, Atoi_Itoa by apply sub_is_int.
    rewrite !sumBalances_insert, supply_no_account, Hwell, Z.add_0_r.
    rewrite Atoi_Itoa by apply sub_is_int.
    fold (TotalSupply w). rewrite <- Hinv. unfold sub.
    destruct (wrap_repr (balance w (ID id) - amount)) as [k1 ->].
    destruct (wrap_repr (sumBalances w)) as [k2 ->].
    apply (wrap_congr _ _ (k1 - k2)). lia.
  - (* Transfer *)
    rewrite andb_true_r in Hwell. apply andb_prop in Hwell as [Hfrom Hrecv].
    rewrite commit_Transfer in Hcommit.
    destruct (String.eqb_spec (ID id) receiver) as [|Hne]; [discriminate|].
    destruct (amount <? 0); [discriminate|].
    destruct (w !! ID id) as [bytes|] eqn:Hsome; [|discriminate].
    destruct (Atoi bytes <? amount); [discriminate|].
    injection Hcommit as <-.
    destruct (transfer_keeps_sum w (ID id) receiver bytes amount) as [Hsum Hsupply];
      try assumption.
    rewrite Hsum, Hsupply. exact Hinv.
  - (* TransferFrom *)
    rewrite andb_true_r in Hwell. apply andb_prop in Hwell as [Hfrom Hrecv].
    apply commit_TransferFrom in Hcommit
      as (bytes & allowance & Hne & _ & Hsome & _ & ->).
    destruct (transfer_keeps_sum w from receiver bytes amount) as [Hsum Hsupply];
      try assumption.
    rewrite sumBalances_insert, allowanceKey_no_account, Z.add_0_r.
    rewrite TotalSupply_insert by apply allowanceKey_not_supply.
    rewrite Hsum, Hsupply. exact Hinv.
  - (* Approve *)
    rewrite commit_Approve in Hcommit.
    destruct (containsNUL (ID id) || containsNUL spender); [discriminate|].
    injection Hcommit as <-.
    rewrite sumBalances_insert, allowanceKey_no_account, Z.add_0_r.
    rewrite TotalSupply_insert by apply allowanceKey_not_supply.
    exact Hinv.
Qed.

Lemma commitAll_keeps_supplyMatches (ts : list transaction) (w w' : gmap string string) :
  forallb wellAddressed ts = true →
  commitAll ts w = Some w' →
  supplyMatches w → supplyMatches w'.
Proof.
  revert w. induction ts as [|t ts IH]; intros w Hwell Hrun Hinv.
  - injection Hrun as <-. exact Hinv.
  - cbn [forallb] in Hwell. apply andb_prop in Hwell as [Ht Hts].
    cbn [commitAll] in Hrun.
    destruct (commit t w) as [w1|] eqn:Hcommit; [|discriminate].
    apply (IH w1 Hts Hrun).
    exact (commit_keeps_supplyMatches t w w1 Ht Hcommit Hinv).
Qed.

(** C1 as it stands does not hold: a recipient is any text, also the key
    of the supply.  [A] of "Org1MSP" mints 100 and transfers 40 to
    "totalSupply": the accounts then sum up to 60 and the supply reads
    140. *)
Lemma supply_differs_from_balances :
  let A := Identity "A" "Org1MSP" in
  let w : gmap string string :=
    {[ "A"%string := "60"%string; "totalSupply"%string := "140"%string ]} in
  commitAll [Transaction A (CallMint 100);
             Transaction A (CallTransfer "totalSupply" 40)] ∅ = Some w ∧
  sumBalances w = 60 ∧ TotalSupply w = 140 ∧
  BalanceOf "A" A (begin w) = (begin w, Ok 60) ∧
  sumBalances w ≠ TotalSupply w.
Proof.
  intros A w.
  assert (Hsum : sumBalances w = 60) by (vm_compute; reflexivity).
  assert (Hsupply : TotalSupply w = 140) by (vm_compute; reflexivity).
  repeat split; try (vm_compute; reflexivity).
  rewrite Hsum, Hsupply. lia.
Qed.

(** Nor is the sum the supply over the integers once an addition of the
    contract has wrapped around: [B] mints the largest [int] and [A] mints
    1; the accounts sum up to 2^63 and the supply reads -2^63. *)
Lemma supply_wraps_around :
  let A := Identity "A" "Org1MSP" in
  let B := Identity "B" "Org1MSP" in
  let w : gmap string string :=
    {[ "A"%string := "1"%string; "B"%string := "9223372036854775807"%string;
       "totalSupply"%string := "-9223372036854775808"%string ]} in
  commitAll [Transaction B (CallMint int_max); Transaction A (CallMint 1)] ∅ = Some w ∧
  sumBalances w = 2 ^ 63 ∧ TotalSupply w = - 2 ^ 63.
Proof. intros A B w. repeat split; vm_compute; reflexivity. Qed.

(** C1, amended.  For every sequence of [Mint], [Burn], [Transfer],
    [TransferFrom] and [Approve] transactions, all of them committed one
    after the other from the empty ledger, in which every caller, owner and
    recipient is an account identifier (not the key of the supply, not a
    composite key): the supply is the sum of all account balances modulo
    2^64, and it is that sum itself whenever the sum is an [int]. *)
Theorem supply_is_sum_of_balances (ts : list transaction) (w : gmap string string) :
  forallb wellAddressed ts = true →
  commitAll ts ∅ = Some w →
  wrap (sumBalances w) = TotalSupply w ∧
  (is_int (sumBalances w) → sumBalances w = TotalSupply w).
Proof.
  intros Hwell Hrun.
  assert (Hinv : supplyMatches w)
    by exact (commitAll_keeps_supplyMatches ts ∅ w Hwell Hrun supplyMatches_empty).
  split; [exact Hinv|].
  intros Hint. rewrite <- Hinv. symmetry. apply wrap_id, Hint.
Qed.

Lemma supply_is_sum_of_balances_witness :
  let A := Identity "A" "Org1MSP" in
  let B := Identity "B" "Org2MSP" in
  let ts := [Transaction A (CallMint 100);
             Transaction A (CallTransfer "B" 40);
             Transaction A (CallApprove "B" 50);
             Transaction B (CallTransferFrom "A" "C" 49);
             Transaction A (CallBurn 10)] in
  let w : gmap string string :=
    {[ "A"%string := "1"%string; "B"%string := "40"%string; "C"%string := "49"%string;
       "totalSupply"%string := "90"%string; allowanceKeyOf "A" "B" := "1"%string ]} in
  commitAll ts ∅ = Some w ∧ sumBalances w = 90 ∧ TotalSupply w = 90.
Proof.
  intros A B ts w.
  assert (Hrun : commitAll ts ∅ = Some w) by (vm_compute; reflexivity).
  assert (Hsum : sumBalances w = 90) by (vm_compute; reflexivity).
  destruct (supply_is_sum_of_balances ts w) as [_ Heq].
  - vm_compute. reflexivity.
  - exact Hrun.
  - split; [exact Hrun|]. split; [exact Hsum|].
    rewrite <- Heq; [exact Hsum|]. rewrite Hsum. unfold is_int, int_min, int_max. lia.
Defined.

(** ** Balances below 0 *)

(** The debit and the credit of the transfer routine keep the balances at
    0 or above when the credit does not wrap around. *)
Lemma transfer_keeps_balancesNonNegative (w : gmap string string)
    from receiver bytes amount :
  from ≠ receiver → 0 <= amount → w !! from = Some bytes → amount <= Atoi bytes →
  balance w receiver + amount <= int_max →
  balancesNonNegative w →
  balancesNonNegative (<[receiver := Itoa (add (balance w receiver) amount)]>
                         (<[from := Itoa (sub (Atoi bytes) amount)]> w)).
Proof.
  intros Hne Hpos Hsome Hfunds Hfits Hall key Hacc.
  pose proof (Atoi_is_int bytes) as Hint.
  pose proof (balance_is_int w receiver) as Hrecv.
  destruct (decide (key = receiver)) as [->|Hk1].
  - rewrite balance_insert, Atoi_Itoa by apply add_is_int.
    specialize (Hall receiver Hacc).
    rewrite add_exact by (unfold is_int, int_min, int_max in *; lia). lia.
  - rewrite balance_insert_ne by congruence.
    destruct (decide (key = from)) as [->|Hk2].
    + rewrite balance_insert, Atoi_Itoa by apply sub_is_int.
      rewrite sub_exact by (unfold is_int, int_min, int_max in *; lia). lia.
    + rewrite balance_insert_ne by congruence. apply Hall, Hacc.
Qed.

(** X16.  Every method but [Burn] keeps every account balance at 0 or
    above, as long as its credit does not wrap around. *)
Lemma commit_keeps_balancesNonNegative (t : transaction) (w w' : gmap string string) :
  isBurn t = false →
  creditFits t w →
  commit t w = Some w' →
  balancesNonNegative w → balancesNonNegative w'.
Proof.
  destruct t as [id [amount|amount|receiver amount|from receiver amount|spender amount]];
    unfold isBurn, creditFits; cbn [call caller];
    intros Hburn Hfits Hcommit Hall; [|discriminate| | |].
  - (* Mint *)
    rewrite commit_Mint in Hcommit.
    destruct (negb _); [discriminate|].
    destruct (Z.leb_spec amount 0) as [|Hpos]; [discriminate|].
    cbv zeta in Hcommit. injection Hcommit as <-.
    intros key Hacc. pose proof (balance_is_int w (ID id)) as Hint.
    rewrite balance_insert_ne by (symmetry; apply isAccount_not_supply, Hacc).
    destruct (decide (key = ID id)) as [->|Hk].
    + rewrite balance_insert, Atoi_Itoa by apply add_is_int.
      specialize (Hall (ID id) Hacc).
      rewrite add_exact by (unfold is_int, int_min, int_max in *; lia). lia.
    + rewrite balance_insert_ne by congruence. apply Hall, Hacc.
  - (* Transfer *)
    rewrite commit_Transfer in Hcommit.
    destruct (String.eqb_spec (ID id) receiver) as [|Hne]; [discriminate|].
    destruct (Z.ltb_spec amount 0) as [|Hpos]; [discriminate|].
    destruct (w !! ID id) as [bytes|] eqn:Hsome; [|discriminate].
    destruct (Z.ltb_spec (Atoi bytes) amount) as [|Hfunds]; [discriminate|].
    injection Hcommit as <-.
    apply transfer_keeps_balancesNonNegative; assumption.
  - (* TransferFrom *)
    apply commit_TransferFrom in Hcommit
      as (bytes & allowance & Hne & Hpos & Hsome & Hfunds & ->).
    intros key Hacc.
    rewrite balance_insert_ne by (symmetry; apply isAccount_not_allowanceKey, Hacc).
    revert key Hacc. apply transfer_keeps_balancesNonNegative; assumption.
  - (* Approve *)
    rewrite commit_Approve in Hcommit.
    destruct (containsNUL (ID id) || containsNUL spender); [discriminate|].
    injection Hcommit as <-. intros key Hacc.
    rewrite balance_insert_ne by (symmetry; apply isAccount_not_allowanceKey, Hacc).
    apply Hall, Hacc.
Qed.

(** The credit of [Mint] can wrap around as well: [A] of "Org1MSP" holds
    the largest [int] and mints 1. *)
Lemma Mint_wraps_around :
  let A := Identity "A" "Org1MSP" in
  let w' : gmap string string :=
    {[ "A"%string := "-9223372036854775808"%string;
       "totalSupply"%string := "-9223372036854775808"%string ]} in
  commitAll [Transaction A (CallMint int_max); Transaction A (CallMint 1)] ∅ = Some w' ∧
  balance w' "A" = int_min.
Proof. intros A w'. split; vm_compute; reflexivity. Qed.

(** * Further properties of the contract *)

(** ** Errors and queries *)

Lemma Atoi_bytesToString (bytes : option string) :
  Atoi (bytesToString bytes) = match bytes with None => 0 | Some b => Atoi b end.
Proof. destruct bytes; reflexivity. Qed.



(** The three queries change nothing, whatever they return:
    [BalanceOf], [Allowance] and [ClientAccountID] leave the stub as it was,
    and [ClientAccountID] returns the identifier under which [Mint], [Burn]
    and [Transfer] keep the balance of the caller. *)
Theorem queries_write_nothing (account owner spender : string) (id : ClientIdentity)
    (stub : Stub) :
  fst (BalanceOf account id stub) = stub ∧
  fst (Allowance owner spender id stub) = stub ∧
  ClientAccountID id stub = (stub, Ok (ID id)).
Proof.
  destruct stub as [w ev]. repeat split.
  - unfold BalanceOf. run_tx. destruct (w !! account); reflexivity.
  - rewrite Allowance_unfold. destruct (containsNUL owner || containsNUL spender); reflexivity.
Qed.

(** ** Issuance *)



Lemma BalanceOf_unfold account id w ev :
  BalanceOf account id (MkStub w ev) =
    match w !! account with
    | None => (MkStub w ev, Err (ErrAccountDoesntExist account))
    | Some bytes => (MkStub w ev, Ok (Atoi bytes))
    end.
Proof. unfold BalanceOf. run_tx. destruct (w !! account); reflexivity. Qed.

Lemma sub_add_cancel a n : is_int a → sub (add a n) n = a.
Proof.
  intros Ha. unfold sub, add. rewrite wrap_sub_l.
  replace (a + n - n) with a by lia. apply wrap_id, Ha.
Qed.

Lemma add_sub_cancel a n : is_int a → add (sub a n) n = a.
Proof.
  intros Ha. unfold sub, add. rewrite wrap_add_l.
  replace (a - n + n) with a by lia. apply wrap_id, Ha.
Qed.

(** X3.  [Mint] by a caller of "Org1MSP" with an amount above 0, the
    identifier of the caller not being the key of the supply, succeeds for
    every ledger: it adds the amount to the balance of the caller (0 without
    a record) and to the supply (0 without a record), with the [+] of [int],
    so exactly whenever the sum is an [int]; it leaves every other key as it
    was, sets a "Transfer" event from "0x0" to the caller, and [BalanceOf]
    for the caller then returns the new balance. *)
Theorem Mint_credits (id : ClientIdentity) (amount : Z) (stub : Stub) :
  MSPID id = "Org1MSP"%string → 0 < amount → ID id ≠ totalSupplyKey →
  let w := state stub in
  ∃ w', Mint amount id stub =
          (MkStub w' (Some ("Transfer"%string, Event "0x0" (ID id) amount)), Ok ()) ∧
    BalanceOf (ID id) id (begin w') = (begin w', Ok (add (balance w (ID id)) amount)) ∧
    TotalSupply w' = add (TotalSupply w) amount ∧
    (balance w (ID id) + amount <= int_max →
       balance w' (ID id) = balance w (ID id) + amount) ∧
    (TotalSupply w + amount <= int_max → TotalSupply w' = TotalSupply w + amount) ∧
    ∀ key, key ≠ ID id → key ≠ totalSupplyKey → w' !! key = w !! key.
Proof.
  destruct stub as [w ev]. cbn [state]. intros Hmsp Hpos Hne. cbv zeta.
  rewrite Mint_unfold, Hmsp, String.eqb_refl. cbn [negb].
  destruct (Z.leb_spec amount 0); [lia|]. cbv zeta.
  pose proof (balance_is_int w (ID id)) as Hbal.
  pose proof (balance_is_int w totalSupplyKey) as Hsup.
  eexists. split; [reflexivity|].
  rewrite balance_insert_ne by exact Hne.
  split; [|split; [|split; [|split]]].
  - unfold begin. rewrite BalanceOf_unfold.
    rewrite lookup_insert_ne by congruence. rewrite lookup_insert_eq.
    rewrite Atoi_Itoa by apply add_is_int. reflexivity.
  - unfold TotalSupply. rewrite balance_insert. apply Atoi_Itoa, add_is_int.
  - intros Hfits. rewrite balance_insert_ne by congruence.
    rewrite balance_insert, Atoi_Itoa by apply add_is_int.
    apply add_exact. unfold is_int, int_min, int_max in *. lia.
  - intros Hfits. unfold TotalSupply in *. rewrite balance_insert.
    rewrite Atoi_Itoa by apply add_is_int.
    apply add_exact. unfold is_int, int_min, int_max in *. lia.
  - intros key Hk1 Hk2. rewrite !lookup_insert_ne by congruence. reflexivity.
Qed.

(** The command of the README: a first [Mint] of 5000. *)
Lemma Mint_credits_witness :
  let A := Identity "A" "Org1MSP" in
  ∃ w', Mint 5000 A (begin ∅) =
          (MkStub w' (Some ("Transfer"%string, Event "0x0" "A" 5000)), Ok ()) ∧
        BalanceOf "A" A (begin w') = (begin w', Ok 5000) ∧
        TotalSupply w' = 5000.
Proof.
  intros A.
  destruct (Mint_credits A 5000 (begin ∅)) as (w' & Hrun & Hbal & Hsup & _).
  - reflexivity.
  - lia.
  - discriminate.
  - exists w'. split; [exact Hrun|]. split; [exact Hbal | exact Hsup].
Defined.

(** X4.  [Burn] by a caller of "Org1MSP" with an amount above 0, the
    identifier of the caller not being the key of the supply, succeeds for
    every ledger, also when the balance is less than the amount or absent:
    it subtracts the amount from the balance of the caller and from the
    supply (each 0 without a record), with the [-] of [int], so exactly
    whenever the difference is an [int]; it leaves every other key as it
    was. *)
Theorem Burn_debits (id : ClientIdentity) (amount : Z) (stub : Stub) :
  MSPID id = "Org1MSP"%string → 0 < amount → ID id ≠ totalSupplyKey →
  let w := state stub in
  ∃ w', Burn amount id stub =
          (MkStub w' (Some ("Transfer"%string, Event "0x0" (ID id) amount)), Ok ()) ∧
    BalanceOf (ID id) id (begin w') = (begin w', Ok (sub (balance w (ID id)) amount)) ∧
    TotalSupply w' = sub (TotalSupply w) amount ∧
    (int_min <= balance w (ID id) - amount →
       balance w' (ID id) = balance w (ID id) - amount) ∧
    (int_min <= TotalSupply w - amount → TotalSupply w' = TotalSupply w - amount) ∧
    ∀ key, key ≠ ID id → key ≠ totalSupplyKey → w' !! key = w !! key.
Proof.
  destruct stub as [w ev]. cbn [state]. intros Hmsp Hpos Hne. cbv zeta.
  rewrite Burn_unfold, Hmsp, String.eqb_refl. cbn [negb].
  destruct (Z.leb_spec amount 0); [lia|]. cbv zeta.
  pose proof (balance_is_int w (ID id)) as Hbal.
  pose proof (balance_is_int w totalSupplyKey) as Hsup.
  eexists. split; [reflexivity|].
  rewrite balance_insert_ne by exact Hne.
  split; [|split; [|split; [|split]]].
  - unfold begin. rewrite BalanceOf_unfold.
    rewrite lookup_insert_ne by congruence. rewrite lookup_insert_eq.
    rewrite Atoi_Itoa by apply sub_is_int. reflexivity.
  - unfold TotalSupply. rewrite balance_insert. apply Atoi_Itoa, sub_is_int.
  - intros Hfits. rewrite balance_insert_ne by congruence.
    rewrite balance_insert, Atoi_Itoa by apply sub_is_int.
    apply sub_exact. unfold is_int, int_min, int_max in *. lia.
  - intros Hfits. unfold TotalSupply in *. rewrite balance_insert.
    rewrite Atoi_Itoa by apply sub_is_int.
    apply sub_exact. unfold is_int, int_min, int_max in *. lia.
  - intros key Hk1 Hk2. rewrite !lookup_insert_ne by congruence. reflexivity.
Qed.

Lemma Burn_debits_witness :
  let A := Identity "A" "Org1MSP" in
  let w : gmap string string :=
    {[ "A"%string := "100"%string; "totalSupply"%string := "100"%string ]} in
  ∃ w', Burn 30 A (begin w) =
          (MkStub w' (Some ("Transfer"%string, Event "0x0" "A" 30)), Ok ()) ∧
        balance w' "A" = 70 ∧ TotalSupply w' = 70.
Proof.
  intros A w.
  assert (HA : balance w "A" = 100) by (vm_compute; reflexivity).
  assert (HS : TotalSupply w = 100) by (vm_compute; reflexivity).
  destruct (Burn_debits A 30 (begin w)) as (w' & Hrun & _ & _ & Hbal & Hsup & _).
  - reflexivity.
  - lia.
  - discriminate.
  - change (int_min <= balance w "A" - 30 → balance w' "A" = balance w "A" - 30) in Hbal.
    change (int_min <= TotalSupply w - 30 → TotalSupply w' = TotalSupply w - 30) in Hsup.
    rewrite HA in Hbal. rewrite HS in Hsup. unfold int_min in *.
    exists w'. split; [exact Hrun|]. split; [apply Hbal | apply Hsup]; lia.
Defined.

(** X5.  [Mint] of an amount followed by [Burn] of the same amount, by the
    same caller of "Org1MSP" whose identifier is not the key of the supply,
    is committed twice and brings the balance of the caller and the supply
    back to what they were (0 for a record that was absent); no other key
    changes.  This holds also when the credit of [Mint] wraps around. *)
Theorem Mint_then_Burn (id : ClientIdentity) (amount : Z) (w : gmap string string) :
  MSPID id = "Org1MSP"%string → 0 < amount → ID id ≠ totalSupplyKey →
  ∃ w1 w2,
    commit (Transaction id (CallMint amount)) w = Some w1 ∧
    commit (Transaction id (CallBurn amount)) w1 = Some w2 ∧
    balance w2 (ID id) = balance w (ID id) ∧
    TotalSupply w2 = TotalSupply w ∧
    ∀ key, key ≠ ID id → key ≠ totalSupplyKey → w2 !! key = w !! key.
Proof.
  intros Hmsp Hpos Hne.
  rewrite commit_Mint, Hmsp, String.eqb_refl. cbn [negb].
  destruct (Z.leb_spec amount 0); [lia|]. cbv zeta.
  eexists. eexists. split; [reflexivity|].
  rewrite commit_Burn, Hmsp, String.eqb_refl. cbn [negb].
  destruct (Z.leb_spec amount 0); [lia|]. cbv zeta.
  split; [reflexivity|].
  split; [|split].
  - rewrite balance_insert_ne by congruence. rewrite balance_insert.
    rewrite Atoi_Itoa by apply sub_is_int.
    rewrite balance_insert_ne by congruence. rewrite balance_insert.
    rewrite Atoi_Itoa by apply add_is_int.
    apply sub_add_cancel, balance_is_int.
  - unfold TotalSupply. rewrite balance_insert, Atoi_Itoa by apply sub_is_int.
    rewrite balance_insert_ne by exact Hne.
    rewrite balance_insert, Atoi_Itoa by apply add_is_int.
    rewrite balance_insert_ne by exact Hne.
    apply sub_add_cancel, balance_is_int.
  - intros key Hk1 Hk2. rewrite !lookup_insert_ne by congruence. reflexivity.
Qed.

Lemma Mint_then_Burn_witness :
  let A := Identity "A" "Org1MSP" in
  let w : gmap string string :=
    {[ "A"%string := "7"%string; "totalSupply"%string := "7"%string ]} in
  ∃ w1 w2,
    commit (Transaction A (CallMint 5)) w = Some w1 ∧
    commit (Transaction A (CallBurn 5)) w1 = Some w2 ∧
    balance w2 "A" = 7 ∧ TotalSupply w2 = 7.
Proof.
  intros A w.
  assert (HA : balance w "A" = 7) by (vm_compute; reflexivity).
  assert (HS : TotalSupply w = 7) by (vm_compute; reflexivity).
  destruct (Mint_then_Burn A 5 w) as (w1 & w2 & H1 & H2 & Hbal & Hsup & _).
  - reflexivity.
  - lia.
  - discriminate.
  - change (balance w2 "A" = balance w "A") in Hbal.
    exists w1, w2. split; [exact H1|]. split; [exact H2|]. split; congruence.
Defined.

(** ** Transfers *)

(** X6.  [Transfer] moves tokens of the caller and of nobody else.  It
    succeeds exactly when the recipient is not the caller, the amount is not
    negative, the caller has a balance record and the balance covers the
    amount.  On success the balance of the caller is lower by the amount,
    the balance of the recipient is higher by the amount (the [+] of [int],
    on 0 without a record), every other key is as it was, and the event is a
    "Transfer" from the caller to the recipient with the amount. *)
Theorem Transfer_moves_own_tokens (id : ClientIdentity) (receiver : string)
    (amount : Z) (stub : Stub) :
  let w := state stub in
  ((∃ stub', Transfer receiver amount id stub = (stub', Ok ())) ↔
     ID id ≠ receiver ∧ 0 <= amount ∧ is_Some (w !! ID id) ∧
     amount <= balance w (ID id)) ∧
  ∀ stub', Transfer receiver amount id stub = (stub', Ok ()) →
    emitted stub' = Some ("Transfer"%string, Event (ID id) receiver amount) ∧
    balance (state stub') (ID id) = balance w (ID id) - amount ∧
    balance (state stub') receiver = add (balance w receiver) amount ∧
    ∀ key, key ≠ ID id → key ≠ receiver → state stub' !! key = w !! key.
Proof.
  destruct stub as [w ev]. cbn [state]. cbv zeta.
  rewrite Transfer_unfold, transferCalc_unfold.
  destruct (String.eqb_spec (ID id) receiver) as [Heq|Hne].
  { split; [split; [intros [? Hrun]; discriminate | intros (H1 & _); congruence]
           | intros ? Hrun; discriminate]. }
  destruct (Z.ltb_spec amount 0) as [Hneg|Hpos].
  { split; [split; [intros [? Hrun]; discriminate | intros (_ & H2 & _); lia]
           | intros ? Hrun; discriminate]. }
  destruct (w !! ID id) as [bytes|] eqn:Hsome.
  2: { split; [split; [intros [? Hrun]; discriminate
                      | intros (_ & _ & [? H3] & _); discriminate]
              | intros ? Hrun; discriminate]. }
  assert (Hbal : balance w (ID id) = Atoi bytes)
    by (unfold balance; rewrite Hsome; reflexivity).
  rewrite Hbal.
  destruct (Z.ltb_spec (Atoi bytes) amount) as [Hlow|Hfunds].
  { split; [split; [intros [? Hrun]; discriminate | intros (_ & _ & _ & H4); lia]
           | intros ? Hrun; discriminate]. }
  pose proof (Atoi_is_int bytes) as Hint.
  split.
  - split; [intros _; eauto | intros _; eexists; reflexivity].
  - intros stub' [= <-]. cbn [state emitted].
    split; [reflexivity|]. split; [|split].
    + rewrite balance_insert_ne by congruence.
      rewrite balance_insert, Atoi_Itoa by apply sub_is_int.
      apply sub_exact. unfold is_int, int_min, int_max in *. lia.
    + rewrite balance_insert. apply Atoi_Itoa, add_is_int.
    + intros key Hk1 Hk2. rewrite !lookup_insert_ne by congruence. reflexivity.
Qed.

(** The commands of the README: after a [Mint] of 5000 the minter transfers
    100 to the recipient. *)
Lemma Transfer_moves_own_tokens_witness :
  let A := Identity "minter" "Org1MSP" in
  let w : gmap string string :=
    {[ "minter"%string := "5000"%string; "totalSupply"%string := "5000"%string ]} in
  ∃ stub', Transfer "recipient" 100 A (begin w) = (stub', Ok ()) ∧
    emitted stub' = Some ("Transfer"%string, Event "minter" "recipient" 100) ∧
    balance (state stub') "minter" = 4900 ∧
    balance (state stub') "recipient" = 100.
Proof.
  intros A w.
  assert (HA : balance w "minter" = 5000) by (vm_compute; reflexivity).
  assert (HB : add (balance w "recipient") 100 = 100) by (vm_compute; reflexivity).
  destruct (Transfer_moves_own_tokens A "recipient" 100 (begin w)) as [Hiff Heff].
  destruct (proj2 Hiff) as [stub' Hrun].
  - split; [discriminate|]. split; [lia|]. split.
    + exists "5000"%string. vm_compute. reflexivity.
    + change (100 <= balance w "minter"). rewrite HA. lia.
  - destruct (Heff stub' Hrun) as (Hev & Hfrom & Hto & _).
    change (balance (state stub') "minter" = balance w "minter" - 100) in Hfrom.
    change (balance (state stub') "recipient" = add (balance w "recipient") 100) in Hto.
    exists stub'. split; [exact Hrun|]. split; [exact Hev|].
    split; [rewrite Hfrom, HA; lia | rewrite Hto; exact HB].
Defined.


Lemma no_composite_not_allowanceKey key owner spender :
  isCompositeKey key = false → key ≠ allowanceKeyOf owner spender.
Proof. intros Hkey ->. discriminate. Qed.



(** ** Allowances *)

(** X8.  [TransferFrom] never uses an allowance up: after every successful
    [TransferFrom], the allowance of the caller on the owner's tokens, as
    [Allowance] returns it, is at least 1. *)
Theorem TransferFrom_leaves_allowance (from receiver : string) (amount : Z)
    (spender reader : ClientIdentity) (stub stub' : Stub) :
  TransferFrom from receiver amount spender stub = (stub', Ok ()) →
  ∃ allowance, Allowance from (ID spender) reader stub' = (stub', Ok allowance) ∧
               1 <= allowance.
Proof.
  destruct stub as [w ev]. rewrite TransferFrom_unfold. cbv zeta.
  destruct (Z.leb_spec amount 0) as [|Hpos]; [discriminate|].
  destruct (containsNUL from || containsNUL (ID spender)) eqn:Hkey; [discriminate|].
  destruct (Z.leb_spec (Atoi (bytesToString (w !! allowanceKeyOf from (ID spender)))) amount)
    as [|Hallow]; [discriminate|].
  destruct (_transferCalc from receiver amount spender (MkStub w ev)) as [stub1 [[]|e]];
    [|discriminate].
  intros [= <-]. eexists. rewrite Allowance_unfold, Hkey. split; [reflexivity|].
  rewrite balance_insert, Atoi_Itoa by apply sub_is_int.
  pose proof (Atoi_is_int (bytesToString (w !! allowanceKeyOf from (ID spender)))) as Hint.
  rewrite sub_exact by (unfold is_int, int_min, int_max in *; lia). lia.
Qed.

Lemma TransferFrom_leaves_allowance_witness :
  let B := Identity "B" "Org2MSP" in
  let w : gmap string string :=
    {[ "A"%string := "100"%string; allowanceKeyOf "A" "B" := "50"%string ]} in
  let w' : gmap string string :=
    {[ "A"%string := "51"%string; "C"%string := "49"%string;
       allowanceKeyOf "A" "B" := "1"%string ]} in
  let stub' := MkStub w' (Some ("Transfer"%string, Event "A" "C" 49)) in
  TransferFrom "A" "C" 49 B (begin w) = (stub', Ok ()) ∧
  ∃ allowance, Allowance "A" "B" B stub' = (stub', Ok allowance) ∧ 1 <= allowance.
Proof.
  intros B w w' stub'.
  assert (Hrun : TransferFrom "A" "C" 49 B (begin w) = (stub', Ok ()))
    by (vm_compute; reflexivity).
  split; [exact Hrun|].
  exact (TransferFrom_leaves_allowance "A" "C" 49 B B (begin w) stub' Hrun).
Defined.

Lemma append_NUL_inj (a a' r r' : string) :
  containsNUL a = false → containsNUL a' = false →
  a +:+ String NUL r = a' +:+ String NUL r' → a = a' ∧ r = r'.
Proof.
  revert a'. induction a as [|c a IH]; intros [|c' a'] Ha Ha' Heq.
  - injection Heq as ->. split; reflexivity.
  - rewrite append_cons in Heq. injection Heq as <- _.
    cbn [containsNUL] in Ha'. rewrite Ascii.eqb_refl in Ha'. discriminate.
  - rewrite append_cons in Heq. injection Heq as -> _.
    cbn [containsNUL] in Ha. rewrite Ascii.eqb_refl in Ha. discriminate.
  - rewrite !append_cons in Heq. injection Heq as -> Heq.
    cbn [containsNUL] in Ha, Ha'.
    apply orb_false_elim in Ha as [_ Ha]. apply orb_false_elim in Ha' as [_ Ha'].
    destruct (IH a' Ha Ha' Heq) as [-> ->]. split; reflexivity.
Qed.

(** Two pairs of names free of the separator have the same allowance key
    only when they are the same pair. *)
Lemma allowanceKeyOf_inj (owner spender owner' spender' : string) :
  containsNUL owner = false → containsNUL spender = false →
  containsNUL owner' = false → containsNUL spender' = false →
  allowanceKeyOf owner spender = allowanceKeyOf owner' spender' →
  owner = owner' ∧ spender = spender'.
Proof.
  intros Ho Hs Ho' Hs' Heq. unfold allowanceKeyOf in Heq.
  injection Heq as Heq.
  apply append_NUL_inj in Heq as [-> Heq]; [|assumption|assumption].
  apply append_NUL_inj in Heq as [-> _]; [|assumption|assumption].
  split; reflexivity.
Qed.

(** X9.  [Approve] writes one allowance and nothing else: after a
    successful [Approve], every key that is no composite key, so every
    balance and the supply, holds what it held, and [Allowance] returns for
    every other pair of owner and spender (their names free of the key
    separator) what it returned before. *)
Theorem Approve_writes_one_allowance (owner reader : ClientIdentity) (spender : string)
    (amount : Z) (stub stub' : Stub) :
  Approve spender amount owner stub = (stub', Ok ()) →
  (∀ key, isCompositeKey key = false → state stub' !! key = state stub !! key) ∧
  (∀ owner' spender',
     containsNUL owner' = false → containsNUL spender' = false →
     (owner', spender') ≠ (ID owner, spender) →
     snd (Allowance owner' spender' reader stub') =
     snd (Allowance owner' spender' reader stub)).
Proof.
  destruct stub as [w ev]. rewrite Approve_unfold.
  destruct (containsNUL (ID owner) || containsNUL spender) eqn:Hkey; [discriminate|].
  apply orb_false_elim in Hkey as [Howner Hspender].
  intros [= <-]. cbn [state]. split.
  - intros key Hkey. rewrite lookup_insert_ne; [reflexivity|].
    symmetry. apply no_composite_not_allowanceKey, Hkey.
  - intros owner' spender' Ho Hs Hpair.
    rewrite !Allowance_unfold, Ho, Hs. cbn [orb snd]. f_equal.
    apply balance_insert_ne. intros Heq.
    apply allowanceKeyOf_inj in Heq as [Heq1 Heq2]; try assumption.
    apply Hpair. congruence.
Qed.

Lemma Approve_writes_one_allowance_witness :
  let A := Identity "A" "Org1MSP" in
  let w : gmap string string :=
    {[ "A"%string := "100"%string; allowanceKeyOf "A" "C" := "7"%string ]} in
  let w' : gmap string string :=
    {[ "A"%string := "100"%string; allowanceKeyOf "A" "C" := "7"%string;
       allowanceKeyOf "A" "B" := "50"%string ]} in
  let stub' := MkStub w' (Some ("Approval"%string, Event "A" "B" 50)) in
  Approve "B" 50 A (begin w) = (stub', Ok ()) ∧
  w' !! "A"%string = w !! "A"%string ∧
  snd (Allowance "A" "C" A stub') = snd (Allowance "A" "C" A (begin w)).
Proof.
  intros A w w' stub'.
  assert (Hrun : Approve "B" 50 A (begin w) = (stub', Ok ()))
    by (vm_compute; reflexivity).
  destruct (Approve_writes_one_allowance A A "B" 50 (begin w) stub' Hrun) as [Hkeys Hother].
  split; [exact Hrun|]. split.
  - exact (Hkeys "A"%string eq_refl).
  - apply Hother; [reflexivity | reflexivity | discriminate].
Defined.

(** ** What a committed transaction writes *)

(** Every committed transaction is a few writes on top of the ledger, and
    with an [int] for amount each of them writes the text of an [int]. *)
Lemma commit_inserts (t : transaction) (w w' : gmap string string) :
  commit t w = Some w' →
  ∃ writes : list (string * string),
    w' = foldr (λ kv m, <[kv.1 := kv.2]> m) w writes ∧
    (is_int (amountOf t) → Forall (λ kv, ∃ z, is_int z ∧ kv.2 = Itoa z) writes).
Proof.
  destruct t as [id [amount|amount|receiver amount|from receiver amount|spender amount]];
    cbn [amountOf call]; intros Hcommit.
  - rewrite commit_Mint in Hcommit.
    destruct (negb _); [discriminate|]. destruct (amount <=? 0); [discriminate|].
    cbv zeta in Hcommit. injection Hcommit as <-.
    eexists [(_, _); (_, _)]. split; [reflexivity|]. intros _.
    repeat constructor; eexists; (split; [|reflexivity]); apply add_is_int.
  - rewrite commit_Burn in Hcommit.
    destruct (negb _); [discriminate|]. destruct (amount <=? 0); [discriminate|].
    cbv zeta in Hcommit. injection Hcommit as <-.
    eexists [(_, _); (_, _)]. split; [reflexivity|]. intros _.
    repeat constructor; eexists; (split; [|reflexivity]); apply sub_is_int.
  - rewrite commit_Transfer in Hcommit.
    destruct (String.eqb (ID id) receiver); [discriminate|].
    destruct (amount <? 0); [discriminate|].
    destruct (w !! ID id) as [bytes|]; [|discriminate].
    destruct (Atoi bytes <? amount); [discriminate|].
    injection Hcommit as <-.
    eexists [(_, _); (_, _)]. split; [reflexivity|]. intros _.
    repeat constructor; eexists; (split; [|reflexivity]);
      (apply add_is_int || apply sub_is_int).
  - unfold commit, begin in Hcommit. cbn [call caller invoke] in Hcommit.
    rewrite TransferFrom_unfold, transferCalc_unfold in Hcommit. cbv zeta in Hcommit.
    destruct (amount <=? 0); [discriminate|].
    destruct (containsNUL from || containsNUL (ID id)); [discriminate|].
    destruct (_ <=? amount); [discriminate|].
    destruct (String.eqb from receiver); [discriminate|].
    destruct (amount <? 0); [discriminate|].
    destruct (w !! from) as [bytes|]; [|discriminate].
    destruct (Atoi bytes <? amount); [discriminate|].
    cbn [state] in Hcommit. injection Hcommit as <-.
    eexists [(_, _); (_, _); (_, _)]. split; [reflexivity|]. intros _.
    repeat constructor; eexists; (split; [|reflexivity]);
      (apply add_is_int || apply sub_is_int).
  - rewrite commit_Approve in Hcommit.
    destruct (containsNUL (ID id) || containsNUL spender); [discriminate|].
    injection Hcommit as <-.
    eexists [(_, _)]. split; [reflexivity|]. intros Hint.
    repeat constructor. eexists. split; [exact Hint | reflexivity].
Qed.

(** X10.  No method removes a record: a key that has a value has one after
    every committed transaction, so [BalanceOf], once it succeeds for an
    account, succeeds for it ever after, also when the balance is back
    at 0. *)
Theorem records_are_never_removed (t : transaction) (w w' : gmap string string)
    (account : string) (reader : ClientIdentity) :
  commit t w = Some w' →
  (∀ key, is_Some (w !! key) → is_Some (w' !! key)) ∧
  ((∃ b, BalanceOf account reader (begin w) = (begin w, Ok b)) →
   ∃ b', BalanceOf account reader (begin w') = (begin w', Ok b')).
Proof.
  intros Hcommit. apply commit_inserts in Hcommit as (writes & -> & _).
  assert (Hkeep : ∀ key, is_Some (w !! key) →
            is_Some (foldr (λ kv m, <[kv.1 := kv.2]> m) w writes !! key)).
  { intros key Hkey. induction writes as [|[k v] writes IH]; [exact Hkey|].
    cbn [foldr fst snd]. rewrite lookup_insert. case_decide; [eauto | exact IH]. }
  split; [exact Hkeep|].
  unfold begin. rewrite !BalanceOf_unfold. intros [b Hb].
  destruct (w !! account) as [bytes|] eqn:Hsome; [|discriminate].
  destruct (Hkeep account) as [bytes' ->]; [rewrite Hsome; eauto|]. eauto.
Qed.

(** [A] transfers all it has: its record stays, with the balance 0. *)
Lemma records_are_never_removed_witness :
  let A := Identity "A" "Org2MSP" in
  let w : gmap string string := {[ "A"%string := "100"%string ]} in
  let w' : gmap string string :=
    {[ "A"%string := "0"%string; "B"%string := "100"%string ]} in
  commit (Transaction A (CallTransfer "B" 100)) w = Some w' ∧
  ∃ b', BalanceOf "A" A (begin w') = (begin w', Ok b').
Proof.
  intros A w w'.
  assert (Hcommit : commit (Transaction A (CallTransfer "B" 100)) w = Some w')
    by (vm_compute; reflexivity).
  split; [exact Hcommit|].
  apply (records_are_never_removed (Transaction A (CallTransfer "B" 100)) w w' "A" A Hcommit).
  exists 100. vm_compute. reflexivity.
Defined.

Lemma canonical_insert (w : gmap string string) key z :
  is_int z → canonical w → canonical (<[key := Itoa z]> w).
Proof.
  intros Hz Hw key' bytes. rewrite lookup_insert. case_decide.
  - intros [= <-]. rewrite Atoi_Itoa by exact Hz. split; [reflexivity | exact Hz].
  - apply Hw.
Qed.

(** X11.  The ledger holds nothing but the texts [Itoa] writes: after every
    sequence of transactions committed from the empty ledger, their amounts
    being [int]s, every record is the decimal text of the [int] that [Atoi]
    reads from it, which is what the source relies on where it drops the
    error of [Atoi] ("not needed since Itoa() was used"). *)
Theorem ledger_stays_canonical (ts : list transaction) (w : gmap string string) :
  Forall (λ t, is_int (amountOf t)) ts →
  commitAll ts ∅ = Some w →
  canonical w.
Proof.
  assert (Hgen : ∀ w0, canonical w0 → Forall (λ t, is_int (amountOf t)) ts →
                   commitAll ts w0 = Some w → canonical w).
  { induction ts as [|t ts IH]; intros w0 Hw0 Hints Hrun.
    - injection Hrun as <-. exact Hw0.
    - cbn [commitAll] in Hrun.
      destruct (commit t w0) as [w1|] eqn:Hcommit; [|discriminate].
      apply Forall_cons in Hints as [Hint Hints].
      apply (IH w1); [|exact Hints|exact Hrun].
      apply commit_inserts in Hcommit as (writes & -> & Hwrites).
      specialize (Hwrites Hint). clear Hint Hrun.
      induction Hwrites as [|[k v] writes (z & Hz & Hv) _ IHw]; [exact Hw0|].
      cbn [foldr fst snd] in *. subst v. apply canonical_insert; assumption. }
  intros Hints Hrun. apply (Hgen ∅); [|exact Hints|exact Hrun].
  intros key bytes. rewrite lookup_empty. discriminate.
Qed.

Lemma ledger_stays_canonical_witness :
  let A := Identity "A" "Org1MSP" in
  let B := Identity "B" "Org2MSP" in
  let ts := [Transaction A (CallMint 100);
             Transaction A (CallApprove "B" (-5));
             Transaction A (CallBurn 130)] in
  let w : gmap string string :=
    {[ "A"%string := "-30"%string; "totalSupply"%string := "-30"%string;
       allowanceKeyOf "A" "B" := "-5"%string ]} in
  commitAll ts ∅ = Some w ∧ canonical w.
Proof.
  intros A B ts w.
  assert (Hrun : commitAll ts ∅ = Some w) by (vm_compute; reflexivity).
  split; [exact Hrun|].
  apply (ledger_stays_canonical ts w); [|exact Hrun].
  repeat constructor; cbn; unfold int_min, int_max; lia.
Defined.

(** X12.  Only [Mint] and [Burn] write the supply: a committed [Transfer],
    [TransferFrom] or [Approve] whose owner, caller and recipient are
    account identifiers leaves the record of the supply as it was. *)
Theorem supply_changes_only_by_issuance (t : transaction) (w w' : gmap string string) :
  wellAddressed t = true → isIssuance t = false →
  commit t w = Some w' →
  w' !! totalSupplyKey = w !! totalSupplyKey ∧ TotalSupply w' = TotalSupply w.
Proof.
  assert (Hread : ∀ m : gmap string string,
            m !! totalSupplyKey = w !! totalSupplyKey → TotalSupply m = TotalSupply w).
  { intros m Hm. unfold TotalSupply, balance. rewrite Hm. reflexivity. }
  destruct t as [id [amount|amount|receiver amount|from receiver amount|spender amount]];
    unfold wellAddressed, isIssuance; cbn [accountsOf call caller forallb];
    intros Hwell Hissue Hcommit; try discriminate;
    (split; [|apply Hread]).
  1,2: rewrite andb_true_r in Hwell; apply andb_prop in Hwell as [Hfrom Hrecv];
       rewrite commit_Transfer in Hcommit;
       destruct (String.eqb (ID id) receiver); [discriminate|];
       destruct (amount <? 0); [discriminate|];
       destruct (w !! ID id) as [bytes|]; [|discriminate];
       destruct (Atoi bytes <? amount); [discriminate|];
       injection Hcommit as <-;
       rewrite !lookup_insert_ne by (apply isAccount_not_supply; assumption);
       reflexivity.
  1,2: rewrite andb_true_r in Hwell; apply andb_prop in Hwell as [Hfrom Hrecv];
       apply commit_TransferFrom in Hcommit as (bytes & allowance & _ & _ & _ & _ & ->);
       rewrite lookup_insert_ne by apply allowanceKey_not_supply;
       rewrite !lookup_insert_ne by (apply isAccount_not_supply; assumption);
       reflexivity.
  1,2: rewrite commit_Approve in Hcommit;
       destruct (containsNUL (ID id) || containsNUL spender); [discriminate|];
       injection Hcommit as <-;
       rewrite lookup_insert_ne by apply allowanceKey_not_supply;
       reflexivity.
Qed.

Lemma supply_changes_only_by_issuance_witness :
  let A := Identity "A" "Org1MSP" in
  let w : gmap string string :=
    {[ "A"%string := "100"%string; "totalSupply"%string := "100"%string ]} in
  let w' : gmap string string :=
    {[ "A"%string := "60"%string; "B"%string := "40"%string;
       "totalSupply"%string := "100"%string ]} in
  commit (Transaction A (CallTransfer "B" 40)) w = Some w' ∧
  TotalSupply w' = TotalSupply w.
Proof.
  intros A w w'.
  assert (Hcommit : commit (Transaction A (CallTransfer "B" 40)) w = Some w')
    by (vm_compute; reflexivity).
  split; [exact Hcommit|].
  apply (supply_changes_only_by_issuance (Transaction A (CallTransfer "B" 40)) w w');
    [reflexivity | reflexivity | exact Hcommit].
Defined.

(** X13.  Only [Approve] and [TransferFrom] write an allowance: a committed
    [Mint], [Burn] or [Transfer] whose caller and recipient are account
    identifiers leaves every composite key, so every allowance, as it
    was. *)
Theorem allowances_change_only_by_approval (t : transaction) (w w' : gmap string string) :
  wellAddressed t = true → writesAllowance t = false →
  commit t w = Some w' →
  ∀ key, isCompositeKey key = true → w' !! key = w !! key.
Proof.
  assert (Hacc : ∀ account key, isAccount account = true →
            isCompositeKey key = true → account ≠ key).
  { intros account key Haccount Hkey ->. unfold isAccount in Haccount.
    rewrite Hkey, andb_false_r in Haccount. discriminate. }
  assert (Hsup : ∀ key, isCompositeKey key = true → totalSupplyKey ≠ key).
  { intros key Hkey <-. discriminate. }
  destruct t as [id [amount|amount|receiver amount|from receiver amount|spender amount]];
    unfold wellAddressed, writesAllowance; cbn [accountsOf call caller forallb];
    intros Hwell Hwrites Hcommit key Hkey; try discriminate.
  - rewrite andb_true_r in Hwell. rewrite commit_Mint in Hcommit.
    destruct (negb _); [discriminate|]. destruct (amount <=? 0); [discriminate|].
    cbv zeta in Hcommit. injection Hcommit as <-.
    rewrite lookup_insert_ne by (apply Hsup, Hkey).
    rewrite lookup_insert_ne by (apply Hacc; assumption). reflexivity.
  - rewrite andb_true_r in Hwell. rewrite commit_Burn in Hcommit.
    destruct (negb _); [discriminate|]. destruct (amount <=? 0); [discriminate|].
    cbv zeta in Hcommit. injection Hcommit as <-.
    rewrite lookup_insert_ne by (apply Hsup, Hkey).
    rewrite lookup_insert_ne by (apply Hacc; assumption). reflexivity.
  - rewrite andb_true_r in Hwell. apply andb_prop in Hwell as [Hfrom Hrecv].
    rewrite commit_Transfer in Hcommit.
    destruct (String.eqb (ID id) receiver); [discriminate|].
    destruct (amount <? 0); [discriminate|].
    destruct (w !! ID id) as [bytes|]; [|discriminate].
    destruct (Atoi bytes <? amount); [discriminate|].
    injection Hcommit as <-.
    rewrite !lookup_insert_ne by (apply Hacc; assumption). reflexivity.
Qed.

Lemma allowances_change_only_by_approval_witness :
  let A := Identity "A" "Org1MSP" in
  let w : gmap string string :=
    {[ "A"%string := "100"%string; allowanceKeyOf "A" "B" := "50"%string ]} in
  let w' : gmap string string :=
    {[ "A"%string := "60"%string; "B"%string := "40"%string;
       allowanceKeyOf "A" "B" := "50"%string ]} in
  commit (Transaction A (CallTransfer "B" 40)) w = Some w' ∧
  w' !! allowanceKeyOf "A" "B" = w !! allowanceKeyOf "A" "B".
Proof.
  intros A w w'.
  assert (Hcommit : commit (Transaction A (CallTransfer "B" 40)) w = Some w')
    by (vm_compute; reflexivity).
  split; [exact Hcommit|].
  apply (allowances_change_only_by_approval (Transaction A (CallTransfer "B" 40)) w w');
    [reflexivity | reflexivity | exact Hcommit | reflexivity].
Defined.

(** [A] holds 100 and transfers 40 to [B], who holds 2. *)
Lemma commit_keeps_balancesNonNegative_witness :
  let A := Identity "A" "Org2MSP" in
  let w : gmap string string :=
    {[ "A"%string := "100"%string; "B"%string := "2"%string ]} in
  let w' : gmap string string :=
    {[ "A"%string := "60"%string; "B"%string := "42"%string ]} in
  commit (Transaction A (CallTransfer "B" 40)) w = Some w' ∧
  balancesNonNegative w ∧ balancesNonNegative w'.
Proof.
  intros A w w'.
  assert (Hcommit : commit (Transaction A (CallTransfer "B" 40)) w = Some w')
    by (vm_compute; reflexivity).
  assert (HB : balance w "B" = 2) by (vm_compute; reflexivity).
  assert (Hw : balancesNonNegative w).
  { intros key _. unfold balance, w.
    destruct (decide (key = "A"%string)) as [->|HkA]; [vm_compute; discriminate|].
    destruct (decide (key = "B"%string)) as [->|HkB]; [vm_compute; discriminate|].
    rewrite lookup_insert_ne by congruence.
    rewrite lookup_singleton_ne by congruence. lia. }
  split; [exact Hcommit|]. split; [exact Hw|].
  apply (commit_keeps_balancesNonNegative (Transaction A (CallTransfer "B" 40)) w w');
    [reflexivity | | exact Hcommit | exact Hw].
  change (balance w "B" + 40 <= int_max). rewrite HB. unfold int_max. lia.
Defined.



(** ** Who can lower a balance *)

(** X15.  Nobody takes tokens from an account without authority: when a
    committed transaction, whose credit does not wrap around, leaves an
    account with a lower balance than before, then either the account is the
    caller and the transaction is its own [Transfer] or [Burn], or the
    transaction is a [TransferFrom] naming the account as owner, by a caller
    whose allowance on the account's tokens is greater than the amount. *)
Theorem debit_needs_authority (t : transaction) (w w' : gmap string string)
    (account : string) :
  isAccount account = true →
  creditFits t w →
  commit t w = Some w' →
  balance w' account < balance w account →
  (ID (caller t) = account ∧
   ((∃ receiver amount, call t = CallTransfer receiver amount) ∨
    (∃ amount, call t = CallBurn amount))) ∨
  (∃ receiver amount,
     call t = CallTransferFrom account receiver amount ∧
     amount < balance w (allowanceKeyOf account (ID (caller t)))).
Proof.
  intros Hacc Hfits Hcommit Hless.
  pose proof (isAccount_not_supply _ Hacc) as Hsup.
  pose proof (balance_is_int w account) as Hint.
  destruct t as [id [amount|amount|receiver amount|from receiver amount|spender amount]];
    unfold creditFits in Hfits; cbn [call caller] in *.
  - (* Mint *)
    exfalso. rewrite commit_Mint in Hcommit.
    destruct (negb _); [discriminate|].
    destruct (Z.leb_spec amount 0) as [|Hpos]; [discriminate|].
    cbv zeta in Hcommit. injection Hcommit as <-.
    rewrite balance_insert_ne in Hless by congruence.
    destruct (decide (ID id = account)) as [Heq|Hne].
    + rewrite Heq in *. rewrite balance_insert, Atoi_Itoa in Hless by apply add_is_int.
      rewrite add_exact in Hless by (unfold is_int, int_min, int_max in *; lia). lia.
    + rewrite balance_insert_ne in Hless by exact Hne. lia.
  - (* Burn *)
    rewrite commit_Burn in Hcommit.
    destruct (negb _); [discriminate|]. destruct (amount <=? 0); [discriminate|].
    cbv zeta in Hcommit. injection Hcommit as <-.
    rewrite balance_insert_ne in Hless by congruence.
    destruct (decide (ID id = account)) as [Heq|Hne]; [left; eauto|].
    exfalso. rewrite balance_insert_ne in Hless by exact Hne. lia.
  - (* Transfer *)
    rewrite commit_Transfer in Hcommit.
    destruct (String.eqb_spec (ID id) receiver) as [|Hdiff]; [discriminate|].
    destruct (Z.ltb_spec amount 0) as [|Hpos]; [discriminate|].
    destruct (w !! ID id) as [bytes|]; [|discriminate].
    destruct (Atoi bytes <? amount); [discriminate|].
    injection Hcommit as <-.
    destruct (decide (ID id = account)) as [Heq|Hne]; [left; eauto|].
    exfalso. destruct (decide (receiver = account)) as [Heq|Hne'].
    + rewrite Heq in *. rewrite balance_insert, Atoi_Itoa in Hless by apply add_is_int.
      rewrite add_exact in Hless by (unfold is_int, int_min, int_max in *; lia). lia.
    + rewrite !balance_insert_ne in Hless by congruence. lia.
  - (* TransferFrom *)
    unfold commit, begin in Hcommit. cbn [call caller invoke] in Hcommit.
    rewrite TransferFrom_unfold, transferCalc_unfold in Hcommit. cbv zeta in Hcommit.
    rewrite Atoi_bytesToString, balance_lookup in Hcommit.
    destruct (amount <=? 0); [discriminate|].
    destruct (containsNUL from || containsNUL (ID id)); [discriminate|].
    destruct (Z.leb_spec (balance w (allowanceKeyOf from (ID id))) amount) as [|Hallow];
      [discriminate|].
    destruct (String.eqb_spec from receiver) as [|Hdiff]; [discriminate|].
    destruct (Z.ltb_spec amount 0) as [|Hpos]; [discriminate|].
    destruct (w !! from) as [bytes|]; [|discriminate].
    destruct (Atoi bytes <? amount); [discriminate|].
    cbn [state] in Hcommit. injection Hcommit as <-.
    rewrite balance_insert_ne in Hless
      by (symmetry; apply isAccount_not_allowanceKey, Hacc).
    destruct (decide (from = account)) as [Heq|Hne]; [right; subst from; eauto|].
    exfalso. destruct (decide (receiver = account)) as [Heq|Hne'].
    + rewrite Heq in *. rewrite balance_insert, Atoi_Itoa in Hless by apply add_is_int.
      rewrite add_exact in Hless by (unfold is_int, int_min, int_max in *; lia). lia.
    + rewrite !balance_insert_ne in Hless by congruence. lia.
  - (* Approve *)
    exfalso. rewrite commit_Approve in Hcommit.
    destruct (containsNUL (ID id) || containsNUL spender); [discriminate|].
    injection Hcommit as <-.
    rewrite balance_insert_ne in Hless
      by (symmetry; apply isAccount_not_allowanceKey, Hacc). lia.
Qed.

Lemma debit_needs_authority_witness :
  let B := Identity "B" "Org2MSP" in
  let t := Transaction B (CallTransferFrom "A" "C" 49) in
  let w : gmap string string :=
    {[ "A"%string := "100"%string; allowanceKeyOf "A" "B" := "50"%string ]} in
  let w' : gmap string string :=
    {[ "A"%string := "51"%string; "C"%string := "49"%string;
       allowanceKeyOf "A" "B" := "1"%string ]} in
  commit t w = Some w' ∧ balance w' "A" < balance w "A" ∧
  49 < balance w (allowanceKeyOf "A" "B").
Proof.
  intros B t w w'.
  assert (Hcommit : commit t w = Some w') by (vm_compute; reflexivity).
  assert (HA : balance w "A" = 100) by (vm_compute; reflexivity).
  assert (HA' : balance w' "A" = 51) by (vm_compute; reflexivity).
  assert (HC : balance w "C" = 0) by (vm_compute; reflexivity).
  assert (Hless : balance w' "A" < balance w "A") by (rewrite HA, HA'; lia).
  split; [exact Hcommit|]. split; [exact Hless|].
  destruct (debit_needs_authority t w w' "A") as [[Heq _]|(receiver & amount & Hcall & Hallow)].
  - reflexivity.
  - change (balance w "C" + 49 <= int_max). rewrite HC. unfold int_max. lia.
  - exact Hcommit.
  - exact Hless.
  - discriminate Heq.
  - injection Hcall as <- <-. exact Hallow.
Defined.

(** * Properties of the asset contract *)

Module AssetTransferFacts.
Import AssetTransfer.

Section Facts.

Context {float32 : Type}.
Variable Marshal : @Asset float32 → option string.
Variable Unmarshal : string → option (@Asset float32).
Variable f500 : float32.

Ltac run_asset :=
  cbv beta iota zeta delta
    [mbind AssetTransfer.Tx_bind mret AssetTransfer.Tx_ret mthrow AssetTransfer.Tx_throw
     AssetExists ReadAsset CreateAsset DeleteAsset UpdateAsset TransferAsset
     GetState PutState DelState negb].

Ltac asset_cases := repeat (case_match; cbv beta iota).

(** X17.  A method of the asset contract that returns an error has written
    nothing: [ReadAsset], [CreateAsset], [DeleteAsset], [UpdateAsset],
    [TransferAsset] and [InitLedger] leave the ledger as it was whenever they
    fail, and the queries [ReadAsset] and [AssetExists] leave it as it was
    also when they succeed. *)
Theorem failed_asset_method_writes_nothing (id owner itemName description newOwner : string)
    (value : float32) (w : gmap string string) :
  (∀ w' e, CreateAsset Marshal id owner itemName description value w = (w', Err e) → w' = w) ∧
  (∀ w' e, DeleteAsset id w = (w', Err e) → w' = w) ∧
  (∀ w' e, UpdateAsset Marshal id owner itemName description value w = (w', Err e) → w' = w) ∧
  (∀ w' e, TransferAsset Marshal Unmarshal id newOwner w = (w', Err e) → w' = w) ∧
  (∀ w' e, InitLedger Marshal f500 w = (w', Err e) → w' = w) ∧
  fst (ReadAsset Unmarshal id w) = w ∧
  fst (AssetExists id w) = w.
Proof.
  repeat split.
  - intros w' e. run_asset. asset_cases; congruence.
  - intros w' e. run_asset. asset_cases; congruence.
  - intros w' e. run_asset. asset_cases; congruence.
  - intros w' e. run_asset. asset_cases; congruence.
  - intros w' e. unfold InitLedger. cbn [putAssets]. run_asset.
    asset_cases; congruence.
  - run_asset. asset_cases; reflexivity.
Qed.

(** An asset that does not exist is refused everywhere: without a
    record under the identifier, [AssetExists] returns false, and
    [ReadAsset], [DeleteAsset], [UpdateAsset] and [TransferAsset] each
    return their error for a missing asset and leave the ledger as it
    was. *)
Theorem missing_asset_is_refused (id owner itemName description newOwner : string)
    (value : float32) (w : gmap string string) :
  w !! id = None →
  AssetExists id w = (w, Ok false) ∧
  ReadAsset Unmarshal id w = (w, Err (ErrThisAssetDoesNotExist id)) ∧
  DeleteAsset id w = (w, Err (ErrDoesNotExist id)) ∧
  UpdateAsset Marshal id owner itemName description value w = (w, Err (ErrDoesNotExist id)) ∧
  TransferAsset Marshal Unmarshal id newOwner w = (w, Err (ErrThisAssetDoesNotExist id)).
Proof. intros Hnone. run_asset. rewrite Hnone. repeat split. Qed.

(** X18.  [CreateAsset] never overwrites: for an identifier that has a
    record it fails with the error of an existing asset and leaves the
    ledger as it was; for an identifier without a record, and an asset that
    [json.Marshal] encodes, it stores the encoding under the identifier and
    touches no other key, after which the asset exists and a second
    [CreateAsset] for the identifier is refused. *)
Theorem CreateAsset_never_overwrites (id owner itemName description : string)
    (value : float32) (w : gmap string string) :
  (is_Some (w !! id) →
     CreateAsset Marshal id owner itemName description value w =
       (w, Err (ErrAlreadyExists id))) ∧
  (∀ bytes, w !! id = None →
     Marshal (MkAsset id owner itemName description value) = Some bytes →
     let w' := <[id := bytes]> w in
     CreateAsset Marshal id owner itemName description value w = (w', Ok ()) ∧
     AssetExists id w' = (w', Ok true) ∧
     (∀ owner' itemName' description' value',
        CreateAsset Marshal id owner' itemName' description' value' w' =
          (w', Err (ErrAlreadyExists id)))).
Proof.
  split.
  - intros [bytes Hsome]. run_asset. rewrite Hsome. reflexivity.
  - intros bytes Hnone Hjson w'. subst w'. run_asset.
    rewrite Hnone, Hjson, lookup_insert_eq. repeat split.
Qed.

(** X19.  [CreateAsset] and then [DeleteAsset] of the same identifier bring
    the ledger back exactly: for an identifier without a record and an asset
    that [json.Marshal] encodes, both succeed and the ledger after them is
    the ledger before them. *)
Theorem CreateAsset_then_DeleteAsset (id owner itemName description : string)
    (value : float32) (w : gmap string string) (bytes : string) :
  w !! id = None →
  Marshal (MkAsset id owner itemName description value) = Some bytes →
  ∃ w', CreateAsset Marshal id owner itemName description value w = (w', Ok ()) ∧
        DeleteAsset id w' = (w, Ok ()).
Proof.
  intros Hnone Hjson. exists (<[id := bytes]> w). run_asset.
  rewrite Hnone, Hjson, lookup_insert_eq.
  split; [reflexivity|]. rewrite delete_insert_id by exact Hnone. reflexivity.
Qed.

(** X20.  [DeleteAsset] of an existing asset removes its record and no
    other: it succeeds, the asset no longer exists, a second [DeleteAsset]
    is refused, and every other key holds what it held. *)
Theorem DeleteAsset_removes_one (id : string) (w : gmap string string) :
  is_Some (w !! id) →
  ∃ w', DeleteAsset id w = (w', Ok ()) ∧
        AssetExists id w' = (w', Ok false) ∧
        DeleteAsset id w' = (w', Err (ErrDoesNotExist id)) ∧
        ∀ key, key ≠ id → w' !! key = w !! key.
Proof.
  intros [bytes Hsome]. exists (delete id w). run_asset.
  rewrite Hsome, lookup_delete_eq.
  repeat split. intros key Hkey. apply lookup_delete_ne. congruence.
Qed.

(** X21.  What [CreateAsset] or [UpdateAsset] stored is what [ReadAsset]
    returns, for an asset whose encoding [json.Unmarshal] decodes back to
    it: the asset read has the identifier it is stored under and the four
    values given.  [UpdateAsset] needs the record to exist and replaces it
    whole. *)
Theorem stored_asset_is_read_back (id owner itemName description : string)
    (value : float32) (w : gmap string string) (bytes : string) :
  let asset := MkAsset id owner itemName description value in
  Marshal asset = Some bytes →
  Unmarshal bytes = Some asset →
  (w !! id = None →
     ∃ w', CreateAsset Marshal id owner itemName description value w = (w', Ok ()) ∧
           ReadAsset Unmarshal id w' = (w', Ok asset)) ∧
  (is_Some (w !! id) →
     ∃ w', UpdateAsset Marshal id owner itemName description value w = (w', Ok ()) ∧
           ReadAsset Unmarshal id w' = (w', Ok asset) ∧
           ∀ key, key ≠ id → w' !! key = w !! key).
Proof.
  intros asset Hjson Hback. subst asset. split.
  - intros Hnone. exists (<[id := bytes]> w). run_asset.
    rewrite Hnone, Hjson, lookup_insert_eq, Hback. split; reflexivity.
  - intros [old Hsome]. exists (<[id := bytes]> w). run_asset.
    rewrite Hsome, Hjson, lookup_insert_eq, Hback.
    repeat split. intros key Hkey. apply lookup_insert_ne. congruence.
Qed.

(** X22.  [TransferAsset] changes the owner and nothing else: when
    [ReadAsset] returns an asset, and the asset with the new owner is
    encoded and decoded back by the JSON functions, [TransferAsset]
    succeeds, [ReadAsset] then returns the same asset with the new owner,
    and every other key holds what it held. *)
Theorem TransferAsset_changes_owner_only (id newOwner : string) (w : gmap string string)
    (asset : @Asset float32) (bytes : string) :
  let asset' := MkAsset (ID asset) newOwner (ItemName asset) (Description asset)
                        (AppraisedValue asset) in
  ReadAsset Unmarshal id w = (w, Ok asset) →
  Marshal asset' = Some bytes →
  Unmarshal bytes = Some asset' →
  ∃ w', TransferAsset Marshal Unmarshal id newOwner w = (w', Ok ()) ∧
        ReadAsset Unmarshal id w' = (w', Ok asset') ∧
        ∀ key, key ≠ id → w' !! key = w !! key.
Proof.
  intros asset' Hread Hjson Hback. subst asset'.
  exists (<[id := bytes]> w). revert Hread. run_asset.
  destruct (w !! id) as [old|]; [|discriminate].
  destruct (Unmarshal old) as [asset0|]; [|discriminate].
  intros [= ->]. rewrite Hjson, lookup_insert_eq, Hback.
  repeat split. intros key Hkey. apply lookup_insert_ne. congruence.
Qed.

(** X23.  [InitLedger] makes no existence check: when [json.Marshal]
    encodes its asset, it stores the encoding under "asset1" on every
    ledger, replacing a record that is there, touches no other key, and
    running it again changes nothing. *)
Theorem InitLedger_resets_asset1 (w : gmap string string) (bytes : string) :
  Marshal (MkAsset "asset1" "DriverCompany" "Chocolate Bars"
                   "Deliver to shipment company, 100 bars" f500) = Some bytes →
  let w' := <["asset1"%string := bytes]> w in
  InitLedger Marshal f500 w = (w', Ok ()) ∧
  InitLedger Marshal f500 w' = (w', Ok ()) ∧
  AssetExists "asset1" w' = (w', Ok true).
Proof.
  intros Hjson w'. subst w'. unfold InitLedger. cbn [putAssets]. rewrite Hjson.
  cbn [ID]. run_asset. rewrite insert_insert_eq, lookup_insert_eq. repeat split.
Qed.

Lemma inRange_unbounded key : inRange "" "" key = true.
Proof. destruct key; reflexivity. Qed.

Lemma scan_unbounded (records : list (string * string)) :
  List.filter (λ kv, inRange "" "" kv.1) records = records.
Proof.
  induction records as [|kv records IH]; [reflexivity|].
  cbn [List.filter]. rewrite inRange_unbounded, IH. reflexivity.
Qed.

Lemma decodeAll_Some (records : list (string * string)) (assets : list (@Asset float32)) :
  decodeAll Unmarshal records = Some assets ↔
  Forall2 (λ kv asset, Unmarshal kv.2 = Some asset) records assets.
Proof.
  revert assets. induction records as [|kv records IH]; intros assets; cbn [decodeAll].
  - split; [intros [= <-]; constructor | intros Hall; inversion Hall; reflexivity].
  - split.
    + destruct (Unmarshal kv.2) as [asset|] eqn:Hkv; [|discriminate].
      destruct (decodeAll Unmarshal records) as [rest|]; [|discriminate].
      intros [= <-]. constructor; [exact Hkv | apply IH; reflexivity].
    + intros Hall. inversion Hall as [|? asset ? rest Hkv Hrest]; subst.
      rewrite Hkv. apply IH in Hrest. rewrite Hrest. reflexivity.
Qed.

Lemma decodeAll_None (records : list (string * string)) :
  Exists (λ kv, Unmarshal kv.2 = None) records → decodeAll Unmarshal records = None.
Proof.
  induction 1 as [kv records Hkv|kv records _ IH]; cbn [decodeAll].
  - rewrite Hkv. reflexivity.
  - destruct (Unmarshal kv.2); [rewrite IH|]; reflexivity.
Qed.

Lemma decodeAll_is_Some (records : list (string * string)) :
  Forall (λ kv, is_Some (Unmarshal kv.2)) records →
  is_Some (decodeAll Unmarshal records).
Proof.
  induction 1 as [|kv records [asset Hkv] _ [assets Hrest]]; cbn [decodeAll].
  - eauto.
  - rewrite Hkv, Hrest. eauto.
Qed.

#[local] Instance byKey_total : Total byKey.
Proof. intros a b. unfold byKey. apply String.le_total. Qed.

(** X24.  [GetAllAssets] lists every record once, in the order of the
    keys, and writes nothing.  When [json.Unmarshal] refuses some record it
    fails; when it decodes every record, [GetAllAssets] returns the
    decodings of the records sorted by key: as many assets as the ledger has
    records, and an asset is listed exactly when it is the decoding of a
    record. *)
Theorem GetAllAssets_lists_every_record (w : gmap string string) :
  fst (GetAllAssets Unmarshal w) = w ∧
  ((∃ key bytes, w !! key = Some bytes ∧ Unmarshal bytes = None) →
     GetAllAssets Unmarshal w = (w, Err ErrJSON)) ∧
  ((∀ key bytes, w !! key = Some bytes → is_Some (Unmarshal bytes)) →
     ∃ assets records,
       GetAllAssets Unmarshal w = (w, Ok assets) ∧
       records ≡ₚ map_to_list w ∧ Sorted byKey records ∧
       Forall2 (λ kv asset, Unmarshal kv.2 = Some asset) records assets ∧
       length assets = size w ∧
       ∀ asset, asset ∈ assets ↔
                ∃ key bytes, w !! key = Some bytes ∧ Unmarshal bytes = Some asset).
Proof.
  pose proof (merge_sort_Permutation byKey (map_to_list w)) as Hperm.
  assert (Hrun : GetAllAssets Unmarshal w =
            match decodeAll Unmarshal (merge_sort byKey (map_to_list w)) with
            | None => (w, Err ErrJSON)
            | Some assets => (w, Ok assets)
            end).
  { unfold GetAllAssets, GetStateByRange.
    cbv beta iota delta [mbind AssetTransfer.Tx_bind].
    rewrite scan_unbounded.
    destruct (decodeAll Unmarshal (merge_sort byKey (map_to_list w))); reflexivity. }
  rewrite Hrun. split; [|split].
  - destruct (decodeAll Unmarshal _); reflexivity.
  - intros (key & bytes & Hsome & Hbad).
    rewrite decodeAll_None; [reflexivity|].
    apply Exists_exists. exists (key, bytes). split; [|exact Hbad].
    rewrite Hperm. apply elem_of_map_to_list. exact Hsome.
  - intros Hgood.
    destruct (decodeAll Unmarshal (merge_sort byKey (map_to_list w))) as [assets|] eqn:Hdec.
    2: { exfalso.
         assert (Hsome : is_Some (decodeAll Unmarshal (merge_sort byKey (map_to_list w)))).
         { apply decodeAll_is_Some, Forall_forall.
           intros [key bytes] Hin. rewrite Hperm in Hin.
           apply elem_of_map_to_list in Hin. exact (Hgood key bytes Hin). }
         rewrite Hdec in Hsome. destruct Hsome as [? [=]]. }
    apply decodeAll_Some in Hdec.
    exists assets, (merge_sort byKey (map_to_list w)).
    split; [reflexivity|]. split; [exact Hperm|].
    split; [apply (Sorted_merge_sort byKey)|]. split; [exact Hdec|]. split.
    + rewrite <- (Forall2_length _ _ _ Hdec), Hperm. apply length_map_to_list.
    + intros asset. split.
      * intros Hin. apply list_elem_of_lookup in Hin as [i Hi].
        destruct (Forall2_lookup_r _ _ _ _ _ Hdec Hi) as ([key bytes] & Hrec & Hkv).
        exists key, bytes. split; [|exact Hkv].
        apply elem_of_map_to_list. rewrite <- Hperm.
        apply list_elem_of_lookup. eauto.
      * intros (key & bytes & Hsome & Hkv).
        assert (Hin : (key, bytes) ∈ merge_sort byKey (map_to_list w))
          by (rewrite Hperm; apply elem_of_map_to_list; exact Hsome).
        apply list_elem_of_lookup in Hin as [i Hi].
        destruct (Forall2_lookup_l _ _ _ _ _ Hdec Hi) as (asset' & Hasset & Hkv').
        cbn [snd] in Hkv'. rewrite Hkv in Hkv'. injection Hkv' as <-.
        apply list_elem_of_lookup. eauto.
Qed.

End Facts.

(** The witnesses run the contract with integers for [float32] and with a
    small encoding that keeps the owner of an asset of the sample ledger. *)

Lemma failed_asset_method_writes_nothing_witness :
  let Marshal := λ a : @Asset Z, Some (Owner a) in
  let w : gmap string string := {[ "asset1"%string := "tom"%string ]} in
  ∃ w', CreateAsset Marshal "asset1" "jerry" "Chocolate Bars" "100 bars" 500 w =
          (w', Err (ErrAlreadyExists "asset1")) ∧
        w' = w.
Proof.
  intros Marshal w. exists w.
  assert (Hrun : CreateAsset Marshal "asset1" "jerry" "Chocolate Bars" "100 bars" 500 w =
                   (w, Err (ErrAlreadyExists "asset1")))
    by (vm_compute; reflexivity).
  split; [exact Hrun|].
  exact (proj1 (failed_asset_method_writes_nothing Marshal (λ _, None) 500
                  "asset1" "jerry" "Chocolate Bars" "100 bars" "jerry" 500 w) _ _ Hrun).
Defined.

Lemma missing_asset_is_refused_witness :
  let Marshal := λ a : @Asset Z, Some (Owner a) in
  let Unmarshal := λ s, Some (MkAsset "asset1" s "Chocolate Bars" "100 bars" 500) in
  let w : gmap string string := {[ "asset1"%string := "tom"%string ]} in
  DeleteAsset "asset2" w = (w, Err (ErrDoesNotExist "asset2")) ∧
  TransferAsset Marshal Unmarshal "asset2" "jerry" w =
    (w, Err (ErrThisAssetDoesNotExist "asset2")).
Proof.
  intros Marshal Unmarshal w.
  destruct (missing_asset_is_refused Marshal Unmarshal
              "asset2" "tom" "Chocolate Bars" "100 bars" "jerry" 500 w)
    as (_ & _ & Hdelete & _ & Htransfer).
  - vm_compute. reflexivity.
  - split; [exact Hdelete | exact Htransfer].
Defined.

Lemma CreateAsset_never_overwrites_witness :
  let Marshal := λ a : @Asset Z, Some (Owner a) in
  let w : gmap string string := {[ "asset1"%string := "tom"%string ]} in
  let w' : gmap string string := <["asset2"%string := "jerry"%string]> w in
  CreateAsset Marshal "asset1" "jerry" "Chocolate Bars" "100 bars" 500 w =
    (w, Err (ErrAlreadyExists "asset1")) ∧
  CreateAsset Marshal "asset2" "jerry" "Chocolate Bars" "100 bars" 500 w = (w', Ok ()) ∧
  AssetExists "asset2" w' = (w', Ok true).
Proof.
  intros Marshal w w'.
  destruct (CreateAsset_never_overwrites Marshal
              "asset1" "jerry" "Chocolate Bars" "100 bars" 500 w) as [Hthere _].
  destruct (CreateAsset_never_overwrites Marshal
              "asset2" "jerry" "Chocolate Bars" "100 bars" 500 w) as [_ Hfresh].
  split.
  - apply Hthere. exists "tom"%string. vm_compute. reflexivity.
  - destruct (Hfresh "jerry"%string) as (Hrun & Hexists & _).
    + vm_compute. reflexivity.
    + reflexivity.
    + split; [exact Hrun | exact Hexists].
Defined.

Lemma CreateAsset_then_DeleteAsset_witness :
  let Marshal := λ a : @Asset Z, Some (Owner a) in
  let w : gmap string string := {[ "asset1"%string := "tom"%string ]} in
  ∃ w', CreateAsset Marshal "asset2" "jerry" "Chocolate Bars" "100 bars" 500 w = (w', Ok ()) ∧
        DeleteAsset "asset2" w' = (w, Ok ()).
Proof.
  intros Marshal w.
  apply (CreateAsset_then_DeleteAsset Marshal
           "asset2" "jerry" "Chocolate Bars" "100 bars" 500 w "jerry").
  - vm_compute. reflexivity.
  - reflexivity.
Defined.

Lemma DeleteAsset_removes_one_witness :
  let w : gmap string string := {[ "asset1"%string := "tom"%string ]} in
  ∃ w', DeleteAsset "asset1" w = (w', Ok ()) ∧
        AssetExists "asset1" w' = (w', Ok false).
Proof.
  intros w.
  destruct (DeleteAsset_removes_one "asset1" w) as (w' & Hrun & Hgone & _).
  - exists "tom"%string. vm_compute. reflexivity.
  - exists w'. split; [exact Hrun | exact Hgone].
Defined.

Lemma stored_asset_is_read_back_witness :
  let Marshal := λ a : @Asset Z, Some (Owner a) in
  let Unmarshal := λ s, Some (MkAsset "asset1" s "Chocolate Bars" "100 bars" 500) in
  ∃ w', CreateAsset Marshal "asset1" "tom" "Chocolate Bars" "100 bars" 500 ∅ = (w', Ok ()) ∧
        ReadAsset Unmarshal "asset1" w' =
          (w', Ok (MkAsset "asset1" "tom" "Chocolate Bars" "100 bars" 500)).
Proof.
  intros Marshal Unmarshal.
  destruct (stored_asset_is_read_back Marshal Unmarshal
              "asset1" "tom" "Chocolate Bars" "100 bars" 500 ∅ "tom") as [Hcreate _].
  - reflexivity.
  - reflexivity.
  - apply Hcreate. apply lookup_empty.
Defined.

Lemma TransferAsset_changes_owner_only_witness :
  let Marshal := λ a : @Asset Z, Some (Owner a) in
  let Unmarshal := λ s, Some (MkAsset "asset1" s "Chocolate Bars" "100 bars" 500) in
  let w : gmap string string := {[ "asset1"%string := "tom"%string ]} in
  ∃ w', TransferAsset Marshal Unmarshal "asset1" "jerry" w = (w', Ok ()) ∧
        ReadAsset Unmarshal "asset1" w' =
          (w', Ok (MkAsset "asset1" "jerry" "Chocolate Bars" "100 bars" 500)).
Proof.
  intros Marshal Unmarshal w.
  destruct (TransferAsset_changes_owner_only Marshal Unmarshal "asset1" "jerry" w
              (MkAsset "asset1" "tom" "Chocolate Bars" "100 bars" 500) "jerry")
    as (w' & Hrun & Hread & _).
  - vm_compute. reflexivity.
  - reflexivity.
  - reflexivity.
  - exists w'. split; [exact Hrun | exact Hread].
Defined.

Lemma InitLedger_resets_asset1_witness :
  let Marshal := λ a : @Asset Z, Some (Owner a) in
  let w : gmap string string := {[ "asset1"%string := "tom"%string ]} in
  let w' : gmap string string := {[ "asset1"%string := "DriverCompany"%string ]} in
  InitLedger Marshal 500 w = (w', Ok ()) ∧ InitLedger Marshal 500 w' = (w', Ok ()).
Proof.
  intros Marshal w w'.
  destruct (InitLedger_resets_asset1 Marshal 500 w "DriverCompany" eq_refl)
    as (Hrun & Hagain & _).
  assert (Hw' : <["asset1"%string := "DriverCompany"%string]> w = w')
    by (vm_compute; reflexivity).
  rewrite Hw' in Hrun, Hagain. split; [exact Hrun | exact Hagain].
Defined.

Lemma GetAllAssets_lists_every_record_witness :
  let Unmarshal := λ s, Some (MkAsset "asset1" s "Chocolate Bars" "100 bars" (500 : Z)) in
  let w : gmap string string :=
    {[ "asset2"%string := "jerry"%string; "asset1"%string := "tom"%string ]} in
  GetAllAssets Unmarshal w =
    (w, Ok [MkAsset "asset1" "tom" "Chocolate Bars" "100 bars" 500;
            MkAsset "asset1" "jerry" "Chocolate Bars" "100 bars" 500]) ∧
  ∃ assets, GetAllAssets Unmarshal w = (w, Ok assets) ∧ length assets = size w.
Proof.
  intros Unmarshal w. split; [vm_compute; reflexivity|].
  destruct (GetAllAssets_lists_every_record Unmarshal w) as (_ & _ & Hgood).
  destruct Hgood as (assets & records & Hrun & _ & _ & _ & Hlen & _).
  - intros key bytes _. eexists. reflexivity.
  - exists assets. split; [exact Hrun | exact Hlen].
Defined.

End AssetTransferFacts.
